(** * Jules orchestrator plugin: task store, reconciliation loop and gateway
    methods of [src/index.ts], embedded as functions over an explicit world
    (task files, wall clock, outgoing requests and console output). *)

From stdpp Require Import gmap strings list fin_maps.
From Stdlib Require Import ZArith Ascii.

(** ** Data model *)

Inductive TaskStatus :=
  | NEW
  | QUEUED
  | PLANNING
  | WAITING_FOR_PLAN_APPROVAL
  | RUNNING
  | WAITING_FOR_DIFF_APPROVAL
  | READY_FOR_PR
  | PR_CREATED
  | MERGED
  | CANCELLED
  | FAILED.

#[global] Instance TaskStatus_eq_dec : EqDecision TaskStatus.
Proof. solve_decision. Defined.

(** [interface Task].  The two timestamps are the instants held by the [Date]
    objects, in milliseconds since the epoch; [toISOString] renders them in a
    fixed-width format whose string order is the order of the instants. *)
Record Task := {
  id : string;
  title : string;
  description : string;
  repo : string;
  status : TaskStatus;
  julesSessionId : option string;
  githubPrUrl : option string;
  createdAt : Z;
  updatedAt : Z;
  error : option string
}.

(** [Partial<Task>]: every key is optional. *)
Record PartialTask := {
  p_id : option string;
  p_title : option string;
  p_description : option string;
  p_repo : option string;
  p_status : option TaskStatus;
  p_julesSessionId : option string;
  p_githubPrUrl : option string;
  p_createdAt : option Z;
  p_updatedAt : option Z;
  p_error : option string
}.

Definition no_updates : PartialTask :=
  {| p_id := None; p_title := None; p_description := None; p_repo := None;
     p_status := None; p_julesSessionId := None; p_githubPrUrl := None;
     p_createdAt := None; p_updatedAt := None; p_error := None |}.

Definition with_status (s : TaskStatus) (u : PartialTask) : PartialTask :=
  {| p_id := p_id u; p_title := p_title u; p_description := p_description u;
     p_repo := p_repo u; p_status := Some s;
     p_julesSessionId := p_julesSessionId u; p_githubPrUrl := p_githubPrUrl u;
     p_createdAt := p_createdAt u; p_updatedAt := p_updatedAt u;
     p_error := p_error u |}.

Definition with_julesSessionId (v : string) (u : PartialTask) : PartialTask :=
  {| p_id := p_id u; p_title := p_title u; p_description := p_description u;
     p_repo := p_repo u; p_status := p_status u;
     p_julesSessionId := Some v; p_githubPrUrl := p_githubPrUrl u;
     p_createdAt := p_createdAt u; p_updatedAt := p_updatedAt u;
     p_error := p_error u |}.

Definition with_githubPrUrl (v : string) (u : PartialTask) : PartialTask :=
  {| p_id := p_id u; p_title := p_title u; p_description := p_description u;
     p_repo := p_repo u; p_status := p_status u;
     p_julesSessionId := p_julesSessionId u; p_githubPrUrl := Some v;
     p_createdAt := p_createdAt u; p_updatedAt := p_updatedAt u;
     p_error := p_error u |}.

Definition with_error (v : string) (u : PartialTask) : PartialTask :=
  {| p_id := p_id u; p_title := p_title u; p_description := p_description u;
     p_repo := p_repo u; p_status := p_status u;
     p_julesSessionId := p_julesSessionId u; p_githubPrUrl := p_githubPrUrl u;
     p_createdAt := p_createdAt u; p_updatedAt := p_updatedAt u;
     p_error := Some v |}.

(** A key of the right operand of a spread wins when it is present. *)
Definition over {A} (old : A) (new : option A) : A :=
  match new with Some v => v | None => old end.

Definition over_opt {A} (old : option A) (new : option A) : option A :=
  match new with Some v => Some v | None => old end.

(** [{ ...task, ...updates, updatedAt: now }] *)
Definition spread (task : Task) (updates : PartialTask) (now : Z) : Task :=
  {| id := over (id task) (p_id updates);
     title := over (title task) (p_title updates);
     description := over (description task) (p_description updates);
     repo := over (repo task) (p_repo updates);
     status := over (status task) (p_status updates);
     julesSessionId := over_opt (julesSessionId task) (p_julesSessionId updates);
     githubPrUrl := over_opt (githubPrUrl task) (p_githubPrUrl updates);
     createdAt := over (createdAt task) (p_createdAt updates);
     updatedAt := now;
     error := over_opt (error task) (p_error updates) |}.

(** JavaScript truthiness of an optional string: absent and empty are falsy. *)
Definition truthy (s : option string) : bool :=
  match s with
  | Some (String _ _) => true
  | _ => false
  end.

(** [a || b] on strings. *)
Definition or_else (a : option string) (b : string) : string :=
  match a with
  | Some (String c r) => String c r
  | _ => b
  end.

(** ** Exceptions, events and the world *)

Inductive Exn :=
  | Error (message : string)        (* new Error(message), axios rejections *)
  | SyntaxError (message : string). (* thrown by JSON.parse *)

Definition message (e : Exn) : string :=
  match e with
  | Error m => m
  | SyntaxError m => m
  end.

Inductive Result (A : Type) :=
  | Ok (a : A)
  | Throw (e : Exn).
Arguments Ok {A} a.
Arguments Throw {A} e.

(** The payload of [POST /repos/:owner/:repo/pulls]. *)
Record PullRequest := {
  pr_url : string;
  pr_title : string;
  pr_body : string;
  pr_head : string;
  pr_base : string
}.

(** What the process does to the outside: requests and console lines. *)
Inductive Event :=
  | PostSessions (Repo Description : string)
  | GetSession (sessionId : string)
  | PostApprovePlan (sessionId : string)
  | PostApproveDiff (sessionId : string)
  | PostCancel (sessionId : string)
  | PostPulls (req : PullRequest)
  | ConsoleError (line : string)
  | ConsoleWarn (line : string).

(** The content of one [<id>.json] file: either data that [JSON.parse] turns
    into a task object, or data on which [JSON.parse] throws. A file whose
    data parses to something that is not a task object ([null], a number) is
    outside this model: the code never writes one, and every statement below
    about "whatever the store holds" is about stores of these two kinds of
    file. *)
Inductive FileData :=
  | Doc (t : Task)
  | Malformed (why : string).

(** [files]: the data directory, keyed by the file name without [.json];
    [reads]: how many times the clock has been read; [trace]: events, most
    recent first. *)
Record World := {
  files : gmap string FileData;
  reads : nat;
  trace : list Event
}.

(** The environment the plugin runs in: configuration, the clock, and the
    answers of the two remote services. [now n] is the instant of the [n]-th
    [new Date()] of the process. An answer depends on the request only, so
    one environment is one unchanging remote state. [post_sessions] answers
    with [response.data.sessionId], [get_session] with the [state] of the
    response body ([None] when the body has no string [state]), [post_pulls]
    with [response.data.html_url]; [Throw] is a rejected request. The two
    answers are strings, as the clients declare them ([Promise<string>]).
    A run in which the remote answers change from one command or tick to
    the next is a list of steps each with its own environment ([runs]). *)
Record Env := {
  defaultRepo : string;
  now : nat -> Z;
  post_sessions : string -> string -> Result string;
  get_session : string -> Result (option string);
  post_approvePlan : string -> Result unit;
  post_approveDiff : string -> Result unit;
  post_cancel : string -> Result unit;
  post_pulls : PullRequest -> Result string
}.

(** ** A state-and-exception monad for [async] functions *)

Definition M (A : Type) : Type := World -> Result A * World.

#[global] Instance M_ret : MRet M := fun A a w => (Ok a, w).

#[global] Instance M_bind : MBind M := fun A B f m w =>
  match m w with
  | (Ok a, w') => f a w'
  | (Throw e, w') => (Throw e, w')
  end.

Definition throw {A} (e : Exn) : M A := fun w => (Throw e, w).

(** [try { m } catch (e) { h e }] *)
Definition try_catch {A} (m : M A) (h : Exn -> M A) : M A := fun w =>
  match m w with
  | (Ok a, w') => (Ok a, w')
  | (Throw e, w') => h e w'
  end.

Definition emit (e : Event) : M unit := fun w =>
  (Ok tt, {| files := files w; reads := reads w; trace := e :: trace w |}).

(** Settle the promise of a remote call. *)
Definition settle {A} (r : Result A) : M A := fun w => (r, w).

(** [for (const x of xs) { body x }] *)
Fixpoint for_of {A} (xs : list A) (body : A -> M unit) : M unit :=
  match xs with
  | [] => mret tt
  | x :: rest => body x ;; for_of rest body
  end.

Section Plugin.

Variable E : Env.

(** [new Date()] *)
Definition new_Date : M Z := fun w =>
  (Ok (now E (reads w)),
   {| files := files w; reads := S (reads w); trace := trace w |}).

(** ** class TaskManager *)

(** [getFilePath id] is [path.join(dataDir, id + ".json")]. For an id without
    a slash that is the file [id.json] of the data directory, which is what
    the key [id] of [files] stands for. An id with a slash names a file in
    another directory, or the file of another id after normalisation; the
    properties that depend on the difference take [plain_id] as a
    hypothesis. *)

Definition saveTask (task : Task) : M unit := fun w =>
  (Ok tt, {| files := <[id task := Doc task]> (files w);
             reads := reads w; trace := trace w |}).

Definition getTask (i : string) : M (option Task) := fun w =>
  match files w !! i with
  | None => (Ok None, w)
  | Some (Doc t) => (Ok (Some t), w)
  | Some (Malformed why) => (Throw (SyntaxError why), w)
  end.

Fixpoint parse_files (entries : list (string * FileData)) (tasks : list Task)
  : M (list Task) :=
  match entries with
  | [] => mret tasks
  | (file, Doc t) :: rest => parse_files rest (tasks ++ [t])
  | (file, Malformed why) :: rest =>
      emit (ConsoleError ("Failed to parse task file: " +:+ file +:+ ".json")) ;;
      parse_files rest tasks
  end.

Definition listTasks : M (list Task) := fun w =>
  parse_files (map_to_list (files w)) [] w.

Definition updateTask (i : string) (updates : PartialTask) : M Task :=
  task ← getTask i;
  match task with
  | None => throw (Error ("Task not found: " +:+ i))
  | Some task =>
      d ← new_Date;
      let updatedTask := spread task updates d in
      saveTask updatedTask ;;
      mret updatedTask
  end.

(** ** class JulesClient *)

Definition createSession (task : Task) : M string :=
  try_catch
    (emit (PostSessions (repo task) (description task)) ;;
     settle (post_sessions E (repo task) (description task)))
    (fun error =>
       emit (ConsoleError "Error creating Jules session:") ;;
       throw error).

Definition getSessionStatus (sessionId : string) : M (option string) :=
  try_catch
    (emit (GetSession sessionId) ;; settle (get_session E sessionId))
    (fun error =>
       emit (ConsoleError "Error fetching Jules session status:") ;;
       throw error).

Definition approvePlan (sessionId : string) : M unit :=
  emit (PostApprovePlan sessionId) ;; settle (post_approvePlan E sessionId).

Definition approveDiff (sessionId : string) : M unit :=
  emit (PostApproveDiff sessionId) ;; settle (post_approveDiff E sessionId).

Definition cancelSession (sessionId : string) : M unit :=
  emit (PostCancel sessionId) ;; settle (post_cancel E sessionId).

(** ** class GithubClient *)

(** [s.split(sep)] for a one-character separator. *)
Fixpoint split (sep : Ascii.ascii) (s : string) : list string :=
  match s with
  | EmptyString => [EmptyString]
  | String c r =>
      if Ascii.eqb c sep then EmptyString :: split sep r
      else match split sep r with
           | h :: t => String c h :: t
           | [] => [String c EmptyString]
           end
  end.

(** A value inside a template literal; a missing one prints as [undefined]. *)
Definition interpolate (o : option string) : string :=
  match o with Some s => s | None => "undefined" end.

(** The request [createPr] sends: the URL built from [repo.split('/')] and
    the JSON payload, with [base] at its default. *)
Definition pulls_request (repo branch title body : string) : PullRequest :=
  let parts := split "/"%char repo in
  let owner := parts !! 0 in
  let repoName := parts !! 1 in
  {| pr_url := "https://api.github.com/repos/" +:+ interpolate owner +:+ "/"
                 +:+ interpolate repoName +:+ "/pulls";
     pr_title := title; pr_body := body; pr_head := branch;
     pr_base := "main" |}.

Definition createPr (repo branch title body : string) : M string :=
  let req := pulls_request repo branch title body in
  emit (PostPulls req) ;; settle (post_pulls E req).

(** ** The [jules-poller] service *)

(** The chain of comparisons on [status.state]; [None] stands for a response
    without a string [state], on which every comparison is false. *)
Definition mapState (state : option string) (current : TaskStatus) : TaskStatus :=
  if decide (state = Some "WAITING_FOR_USER_PLAN_APPROVAL") then
    WAITING_FOR_PLAN_APPROVAL
  else if decide (state = Some "WAITING_FOR_USER_DIFF_APPROVAL") then
    WAITING_FOR_DIFF_APPROVAL
  else if decide (state = Some "DONE") then READY_FOR_PR
  else if decide (state = Some "FAILED" \/ state = Some "ERROR") then FAILED
  else current.

Definition polled (s : TaskStatus) : bool :=
  match s with
  | RUNNING | PLANNING | QUEUED => true
  | _ => false
  end.

(** The body of the loop over the listed tasks. *)
Definition poll (task : Task) : M unit :=
  if polled (status task) then
    match julesSessionId task with
    | Some (String c r) =>
        try_catch
          (state ← getSessionStatus (String c r);
           let newStatus := mapState state (status task) in
           if decide (newStatus <> status task) then
             updateTask (id task) (with_status newStatus no_updates) ;; mret tt
           else mret tt)
          (fun e =>
             emit (ConsoleError ("Error polling task " +:+ id task +:+ ":")))
    | _ => mret tt
    end
  else mret tt.

Definition run : M unit :=
  tasks ← listTasks;
  for_of tasks poll.

(** ** Gateway methods *)

(** [rnd] is the value of [Math.random().toString(36).substring(7)]. *)
Definition createTask (rnd : string) (p_title p_description : string)
    (p_repo : option string) : M Task :=
  created ← new_Date;
  updated ← new_Date;
  let task :=
    {| id := rnd; title := p_title; description := p_description;
       repo := or_else p_repo (defaultRepo E); status := NEW;
       julesSessionId := None; githubPrUrl := None;
       createdAt := created; updatedAt := updated; error := None |} in
  saveTask task ;;
  try_catch
    (sessionId ← createSession task;
     updateTask rnd (with_julesSessionId sessionId (with_status PLANNING no_updates)))
    (fun e =>
       updateTask rnd (with_status FAILED (with_error (message e) no_updates))).

Definition approveTask (i : string) : M (option Task) :=
  task ← getTask i;
  match task with
  | Some task =>
      match julesSessionId task with
      | Some (String c r) =>
          (if decide (status task = WAITING_FOR_PLAN_APPROVAL) then
             approvePlan (String c r) ;;
             updateTask i (with_status RUNNING no_updates) ;; mret tt
           else if decide (status task = WAITING_FOR_DIFF_APPROVAL) then
             approveDiff (String c r) ;;
             updateTask i (with_status READY_FOR_PR no_updates) ;; mret tt
           else throw (Error "Task is not in a state waiting for approval")) ;;
          getTask i
      | _ => throw (Error "Task not found or no session")
      end
  | None => throw (Error "Task not found or no session")
  end.

Definition cancelTask (i : string) : M (option Task) :=
  task ← getTask i;
  match task with
  | None => throw (Error "Task not found")
  | Some task =>
      match julesSessionId task with
      | Some (String c r) =>
          try_catch (cancelSession (String c r))
            (fun e => emit (ConsoleWarn "Failed to cancel Jules session"))
      | _ => mret tt
      end ;;
      updateTask i (with_status CANCELLED no_updates) ;;
      getTask i
  end.

Definition createPrForTask (i branch : string) (p_title p_body : option string)
  : M (option Task) :=
  task ← getTask i;
  match task with
  | None => throw (Error "Task not found")
  | Some task =>
      if decide (status task <> READY_FOR_PR) then
        throw (Error "Task is not ready for PR")
      else
        prUrl ← createPr (repo task) branch
                  (or_else p_title (title task))
                  (or_else p_body (description task));
        updateTask i (with_githubPrUrl prUrl (with_status PR_CREATED no_updates)) ;;
        getTask i
  end.

End Plugin.

(** ** Stores in which every record sits in the file named after its [id] *)

Definition own_id (k : string) (d : FileData) : Prop :=
  match d with
  | Doc t => id t = k
  | Malformed _ => True
  end.

#[global] Instance own_id_dec k d : Decision (own_id k d).
Proof. destruct d; simpl; apply _. Defined.

Definition own_ids (m : gmap string FileData) : Prop := map_Forall own_id m.

#[global] Instance own_ids_dec m : Decision (own_ids m).
Proof. unfold own_ids. apply _. Defined.

(** The world before the first command: an empty data directory. *)
Definition boot : World := {| files := ∅; reads := 0; trace := [] |}.

(** What the commands of the gateway and the timer can ask for. *)
Inductive Command :=
  | CreateTask (rnd title description : string) (repo : option string)
  | ListTasks
  | GetTask (i : string)
  | ApproveTask (i : string)
  | CancelTask (i : string)
  | CreatePrForTask (i branch : string) (title body : option string)
  | Tick.

Definition exec (E : Env) (c : Command) (w : World) : World :=
  match c with
  | CreateTask rnd t d r => snd (createTask E rnd t d r w)
  | ListTasks => snd (listTasks w)
  | GetTask i => snd (getTask i w)
  | ApproveTask i => snd (approveTask E i w)
  | CancelTask i => snd (cancelTask E i w)
  | CreatePrForTask i b t d => snd (createPrForTask E i b t d w)
  | Tick => snd (run E w)
  end.

Definition execs (E : Env) (cs : list Command) (w : World) : World :=
  foldl (fun w c => exec E c w) w cs.

(** A run in which every command or tick meets its own environment: the
    remote services may answer differently from one step to the next. *)
Definition runs (steps : list (Env * Command)) (w : World) : World :=
  foldl (fun w s => exec (fst s) (snd s) w) w steps.

(** The errors the specification files under InvalidState. *)
Definition InvalidState (e : Exn) : Prop :=
  e = Error "Task is not in a state waiting for approval" \/
  e = Error "Task is not ready for PR".

(** The status the poller writes for a listed task, if it writes at all. *)
Definition verdict (E : Env) (task : Task) : option TaskStatus :=
  if polled (status task) then
    match julesSessionId task with
    | Some (String c r) =>
        match get_session E (String c r) with
        | Ok state =>
            let newStatus := mapState state (status task) in
            if decide (newStatus <> status task) then Some newStatus else None
        | Throw _ => None
        end
    | _ => None
    end
  else None.

(** Two records that differ at most in [status] and [updatedAt]. *)
Definition same_but_status (t t' : Task) : Prop :=
  id t' = id t /\ title t' = title t /\ description t' = description t /\
  repo t' = repo t /\ julesSessionId t' = julesSessionId t /\
  githubPrUrl t' = githubPrUrl t /\ createdAt t' = createdAt t /\
  error t' = error t.

(** The records among the entries of a directory listing, in order. *)
Fixpoint docs_of (entries : list (string * FileData)) : list Task :=
  match entries with
  | [] => []
  | (_, Doc t) :: rest => t :: docs_of rest
  | (_, Malformed _) :: rest => docs_of rest
  end.

(** The terminal states of the lifecycle (the code itself never names them). *)
Definition terminal (s : TaskStatus) : bool :=
  match s with
  | MERGED | CANCELLED | FAILED => true
  | _ => false
  end.

(** Both timestamps of [t] are clock readings taken before the [n]-th, the
    creation one first. *)
Definition stamped (E : Env) (n : nat) (t : Task) : Prop :=
  exists i j, i <= j < n /\ createdAt t = now E i /\ updatedAt t = now E j.

(** The invariant of the worlds reached from [boot]. *)
Definition Inv (E : Env) (w : World) : Prop :=
  own_ids (files w) /\
  forall k t, files w !! k = Some (Doc t) -> stamped E (reads w) t.

(** A merge that leaves [id] and [createdAt] alone. *)
Definition keeps_identity (u : PartialTask) : Prop :=
  p_id u = None /\ p_createdAt u = None.

(** How a command that took the world from [w] to [w'] produced the record
    [t'] of file [k]: by [updateTask]'s merge at the [j]-th clock reading,
    over the record the file held or over one the command itself created. *)
Definition written (E : Env) (w w' : World) (k : string) (t' : Task) : Prop :=
  exists t u j, keeps_identity u /\ reads w <= j < reads w' /\
    t' = spread t u (now E j) /\ id t = k /\
    (files w !! k = Some (Doc t) \/
     exists i, reads w <= i <= j /\ createdAt t = now E i).

Definition evolves (E : Env) (w w' : World) : Prop :=
  reads w <= reads w' /\
  forall k, files w' !! k = files w !! k \/
            exists t', files w' !! k = Some (Doc t') /\ written E w w' k t'.

(** ** Notions for the lifecycle as the code runs it *)

(** [{ ...u1, ...u2 }] on partial records. *)
Definition combine (u1 u2 : PartialTask) : PartialTask :=
  {| p_id := over_opt (p_id u1) (p_id u2);
     p_title := over_opt (p_title u1) (p_title u2);
     p_description := over_opt (p_description u1) (p_description u2);
     p_repo := over_opt (p_repo u1) (p_repo u2);
     p_status := over_opt (p_status u1) (p_status u2);
     p_julesSessionId := over_opt (p_julesSessionId u1) (p_julesSessionId u2);
     p_githubPrUrl := over_opt (p_githubPrUrl u1) (p_githubPrUrl u2);
     p_createdAt := over_opt (p_createdAt u1) (p_createdAt u2);
     p_updatedAt := over_opt (p_updatedAt u1) (p_updatedAt u2);
     p_error := over_opt (p_error u1) (p_error u2) |}.

(** The statuses the poller's mapping can assign. *)
Definition mapped (s : TaskStatus) : bool :=
  match s with
  | WAITING_FOR_PLAN_APPROVAL | WAITING_FOR_DIFF_APPROVAL
  | READY_FOR_PR | FAILED => true
  | _ => false
  end.

(** The status changes the handlers and the poller make to a stored task. *)
Definition edge (s s' : TaskStatus) : bool :=
  match s, s' with
  | _, CANCELLED => true
  | WAITING_FOR_PLAN_APPROVAL, RUNNING => true
  | WAITING_FOR_DIFF_APPROVAL, READY_FOR_PR => true
  | READY_FOR_PR, PR_CREATED => true
  | _, _ => polled s && mapped s'
  end.

(** The object literals passed to [updateTask] on a stored task [t], each
    with the condition under which its call site is reached. *)
Inductive Patch (t : Task) : PartialTask -> Prop :=
  | patch_poll newStatus :
      polled (status t) = true -> truthy (julesSessionId t) = true ->
      mapped newStatus = true ->
      Patch t (with_status newStatus no_updates)
  | patch_approvePlan :
      status t = WAITING_FOR_PLAN_APPROVAL ->
      truthy (julesSessionId t) = true ->
      Patch t (with_status RUNNING no_updates)
  | patch_approveDiff :
      status t = WAITING_FOR_DIFF_APPROVAL ->
      truthy (julesSessionId t) = true ->
      Patch t (with_status READY_FOR_PR no_updates)
  | patch_cancel :
      Patch t (with_status CANCELLED no_updates)
  | patch_createPr prUrl :
      status t = READY_FOR_PR ->
      Patch t (with_githubPrUrl prUrl (with_status PR_CREATED no_updates)).

(** The statuses no call site but [cancelTask]'s leaves. *)
Definition dead_end (s : TaskStatus) : bool :=
  match s with
  | NEW | PR_CREATED | MERGED | CANCELLED | FAILED => true
  | _ => false
  end.

(** The id a gateway command is about. *)
Definition target (c : Command) : option string :=
  match c with
  | CreateTask rnd _ _ _ => Some rnd
  | GetTask i | ApproveTask i | CancelTask i | CreatePrForTask i _ _ _ => Some i
  | ListTasks | Tick => None
  end.

(** The command writes the file of [k] from scratch. *)
Definition creates (c : Command) (k : string) : Prop :=
  match c with
  | CreateTask rnd _ _ _ => rnd = k
  | _ => False
  end.

(** The fields no update of the code touches once the task has its session. *)
Definition same_core (t t' : Task) : Prop :=
  id t' = id t /\ title t' = title t /\ description t' = description t /\
  repo t' = repo t /\ createdAt t' = createdAt t /\
  julesSessionId t' = julesSessionId t /\ error t' = error t.

(** What holds of every task the code has stored, between two commands. *)
Definition at_rest (t : Task) : Prop :=
  (status t <> NEW /\ status t <> QUEUED /\ status t <> MERGED) /\
  (julesSessionId t = None -> status t = FAILED \/ status t = CANCELLED) /\
  (is_Some (error t) -> julesSessionId t = None) /\
  (is_Some (githubPrUrl t) -> status t = PR_CREATED \/ status t = CANCELLED) /\
  (status t = PR_CREATED -> is_Some (githubPrUrl t)).

(** Events a tick may add on behalf of the stored tasks of [m]. *)
Definition tick_event (m : gmap string FileData) (e : Event) : Prop :=
  (exists line, e = ConsoleError line) \/
  (exists k t sid, e = GetSession sid /\ m !! k = Some (Doc t) /\
     polled (status t) = true /\ julesSessionId t = Some sid /\
     truthy (Some sid) = true).

(** The string has no occurrence of the character. *)
Fixpoint lacks (c : Ascii.ascii) (s : string) : bool :=
  match s with
  | EmptyString => true
  | String a r => negb (Ascii.eqb a c) && lacks c r
  end.

(** An id that [path.join] leaves alone: no slash in it, so that the file of
    the id is [id.json] in the data directory itself. *)
Definition plain_id (i : string) : Prop := lacks "/" i = true.

(** ** Scenario fixtures *)

(** A task as [createTask] leaves it once its session exists, put in status
    [s]. *)
Definition sample_task (s : TaskStatus) : Task :=
  {| id := "t1"; title := "fix bug"; description := "crash on start";
     repo := "org/app"; status := s; julesSessionId := Some "s1";
     githubPrUrl := None; createdAt := 1000; updatedAt := 1002;
     error := None |}.

(** A data directory holding one task, after three clock readings. *)
Definition world_with (t : Task) : World :=
  {| files := {[ id t := Doc t ]}; reads := 3; trace := [] |}.

(** Every remote call succeeds; the clock advances by one at each reading. *)
Definition happy_env : Env :=
  {| defaultRepo := "org/app";
     now := fun n => (1000 + Z.of_nat n)%Z;
     post_sessions := fun _ _ => Ok "s1";
     get_session := fun _ => Ok (Some "DONE");
     post_approvePlan := fun _ => Ok tt;
     post_approveDiff := fun _ => Ok tt;
     post_cancel := fun _ => Ok tt;
     post_pulls := fun _ => Ok "https://host/org/app/pull/7" |}.

(** Every remote call is rejected. *)
Definition failing_env : Env :=
  {| defaultRepo := "org/app";
     now := fun n => (1000 + Z.of_nat n)%Z;
     post_sessions := fun _ _ => Throw (Error "Network Error");
     get_session := fun _ => Throw (Error "Network Error");
     post_approvePlan := fun _ => Throw (Error "Network Error");
     post_approveDiff := fun _ => Throw (Error "Network Error");
     post_cancel := fun _ => Throw (Error "Network Error");
     post_pulls := fun _ => Throw (Error "Network Error") |}.

(** A task as [createTask] leaves it when the session creation is rejected. *)
Definition failed_task : Task :=
  {| id := "t1"; title := "fix bug"; description := "crash on start";
     repo := "org/app"; status := FAILED; julesSessionId := None;
     githubPrUrl := None; createdAt := 1000; updatedAt := 1002;
     error := Some "Network Error" |}.

(** A task after its pull request was opened. *)
Definition pr_task : Task :=
  {| id := "t1"; title := "fix bug"; description := "crash on start";
     repo := "org/app"; status := PR_CREATED; julesSessionId := Some "s1";
     githubPrUrl := Some "https://host/org/app/pull/7"; createdAt := 1000;
     updatedAt := 1004; error := None |}.

(** A data directory whose only file does not parse. *)
Definition broken_world : World :=
  {| files := {[ "t1" := Malformed "Unexpected end of JSON input" ]};
     reads := 0; trace := [] |}.

(** Updates that carry an [id]. *)
Definition with_id (v : string) (u : PartialTask) : PartialTask :=
  {| p_id := Some v; p_title := p_title u; p_description := p_description u;
     p_repo := p_repo u; p_status := p_status u;
     p_julesSessionId := p_julesSessionId u; p_githubPrUrl := p_githubPrUrl u;
     p_createdAt := p_createdAt u; p_updatedAt := p_updatedAt u;
     p_error := p_error u |}.

(** All readings fall in the same millisecond. *)
Definition same_instant_env : Env :=
  {| defaultRepo := "org/app";
     now := fun _ => 1000%Z;
     post_sessions := fun _ _ => Ok "s1";
     get_session := fun _ => Ok (Some "DONE");
     post_approvePlan := fun _ => Ok tt;
     post_approveDiff := fun _ => Ok tt;
     post_cancel := fun _ => Ok tt;
     post_pulls := fun _ => Ok "https://host/org/app/pull/7" |}.

(** * Properties *)

Ltac run_monad :=
  unfold mbind, M_bind, mret, M_ret, throw, try_catch, emit, settle,
    new_Date, saveTask, getTask; cbn.

Section Store.

Variable E : Env.

Lemma getTask_doc i t w :
  files w !! i = Some (Doc t) -> getTask i w = (Ok (Some t), w).
Proof. intros H. unfold getTask. by rewrite H. Qed.

Lemma getTask_missing i w :
  files w !! i = None -> getTask i w = (Ok None, w).
Proof. intros H. unfold getTask. by rewrite H. Qed.

Lemma getTask_malformed i why w :
  files w !! i = Some (Malformed why) ->
  getTask i w = (Throw (SyntaxError why), w).
Proof. intros H. unfold getTask. by rewrite H. Qed.

Lemma getTask_world {i w} : snd (getTask i w) = w.
Proof. unfold getTask. by destruct (files w !! i) as [[]|]. Qed.

Lemma updateTask_doc i u t w :
  files w !! i = Some (Doc t) ->
  updateTask E i u w =
    (Ok (spread t u (now E (reads w))),
     {| files := <[id (spread t u (now E (reads w))) :=
                    Doc (spread t u (now E (reads w)))]> (files w);
        reads := S (reads w); trace := trace w |}).
Proof. intros H. unfold updateTask. run_monad. by rewrite H. Qed.

Lemma updateTask_missing i u w :
  files w !! i = None ->
  updateTask E i u w = (Throw (Error ("Task not found: " +:+ i)), w).
Proof. intros H. unfold updateTask. run_monad. by rewrite H. Qed.

Lemma updateTask_malformed i u why w :
  files w !! i = Some (Malformed why) ->
  updateTask E i u w = (Throw (SyntaxError why), w).
Proof. intros H. unfold updateTask. run_monad. by rewrite H. Qed.

Lemma spread_status_same t s d :
  same_but_status t (spread t (with_status s no_updates) d).
Proof. by repeat split. Qed.

Lemma own_ids_lookup m k t : own_ids m -> m !! k = Some (Doc t) -> id t = k.
Proof. intros Hm Hk. exact (Hm k (Doc t) Hk). Qed.

Lemma own_ids_insert m t : own_ids m -> own_ids (<[id t := Doc t]> m).
Proof. intros Hm. apply map_Forall_insert_2; [done | exact Hm]. Qed.

End Store.

Section Poller.

Variable E : Env.

Lemma mapState_cases state current :
  mapState state current = current \/ polled (mapState state current) = false.
Proof.
  unfold mapState. repeat case_decide; auto.
Qed.

Lemma mapState_other state current :
  state <> Some "WAITING_FOR_USER_PLAN_APPROVAL" ->
  state <> Some "WAITING_FOR_USER_DIFF_APPROVAL" ->
  state <> Some "DONE" -> state <> Some "FAILED" -> state <> Some "ERROR" ->
  mapState state current = current.
Proof.
  intros. unfold mapState. repeat case_decide; try done. tauto.
Qed.

Lemma verdict_polled t ns :
  verdict E t = Some ns ->
  polled (status t) = true /\ polled ns = false /\ ns <> status t.
Proof.
  unfold verdict. destruct (polled (status t)) eqn:Hp; [|done].
  destruct (julesSessionId t) as [[|c r]|]; try done.
  destruct (get_session E (String c r)) as [state|e]; [|done].
  case_decide as Hne; [|done]. intros [= <-]. split; [done|]. split; [|done].
  by destruct (mapState_cases state (status t)).
Qed.

Lemma verdict_unpolled t : polled (status t) = false -> verdict E t = None.
Proof. intros H. unfold verdict. by rewrite H. Qed.

Lemma poll_same_status t sid state :
  julesSessionId t = Some sid -> get_session E sid = Ok state ->
  mapState state (status t) = status t ->
  verdict E t = None.
Proof.
  intros Hs Hget Hmap. unfold verdict. rewrite Hs.
  destruct (polled (status t)); [|done]. destruct sid as [|c r]; [done|].
  rewrite Hget. cbn. by rewrite decide_False by (intros H; by apply H).
Qed.

Lemma poll_quiet t w :
  verdict E t = None ->
  exists tr, poll E t w =
    (Ok tt, {| files := files w; reads := reads w; trace := tr |}).
Proof.
  unfold verdict, poll. destruct w as [m n tr0].
  destruct (polled (status t)); [|by eexists].
  destruct (julesSessionId t) as [[|c r]|]; try by eexists.
  unfold getSessionStatus. run_monad.
  destruct (get_session E (String c r)) as [state|e]; [|by eexists].
  case_decide; [done|]. by eexists.
Qed.

Lemma poll_write t t0 ns w :
  verdict E t = Some ns ->
  files w !! id t = Some (Doc t0) ->
  exists tr, poll E t w =
    (Ok tt,
     {| files := <[id t0 := Doc (spread t0 (with_status ns no_updates)
                                   (now E (reads w)))]> (files w);
        reads := S (reads w); trace := tr |}).
Proof.
  unfold verdict, poll. destruct w as [m n tr0]. simpl.
  destruct (polled (status t)); [|done].
  destruct (julesSessionId t) as [[|c r]|]; try done.
  unfold getSessionStatus, updateTask. run_monad.
  destruct (get_session E (String c r)) as [state|e]; [|done].
  case_decide; [|done]. intros [= <-] Hk. cbn. rewrite Hk. by eexists.
Qed.

End Poller.

Section Listing.

Lemma parse_files_spec entries : forall acc w,
  exists tr, parse_files entries acc w =
    (Ok (acc ++ docs_of entries),
     {| files := files w; reads := reads w; trace := tr |}).
Proof.
  induction entries as [|[file [t|why]] rest IH]; intros acc w; simpl.
  - destruct w. rewrite app_nil_r. by eexists.
  - destruct (IH (acc ++ [t]) w) as [tr ->]. rewrite <- app_assoc. by eexists.
  - run_monad. destruct (IH acc
      {| files := files w; reads := reads w;
         trace := ConsoleError ("Failed to parse task file: " +:+ file +:+ ".json")
                    :: trace w |}) as [tr ->].
    by eexists.
Qed.

Lemma listTasks_spec w :
  exists tr, listTasks w =
    (Ok (docs_of (map_to_list (files w))),
     {| files := files w; reads := reads w; trace := tr |}).
Proof. unfold listTasks. apply (parse_files_spec _ []). Qed.

Lemma elem_of_docs_of entries t :
  t ∈ docs_of entries <-> exists k, (k, Doc t) ∈ entries.
Proof.
  induction entries as [|[file [t'|why]] rest IH]; simpl.
  - split; [intros H; inversion H | intros [k H]; inversion H].
  - rewrite elem_of_cons, IH. split.
    + intros [->|[k H]]; [exists file; left | exists k; by right].
    + intros [k H]. apply elem_of_cons in H as [[= _ ->]|H]; eauto.
  - rewrite IH. split.
    + intros [k H]. exists k. by right.
    + intros [k H]. apply elem_of_cons in H as [[=]|H]. eauto.
Qed.

Lemma docs_of_NoDup entries :
  (forall k t, (k, Doc t) ∈ entries -> id t = k) ->
  NoDup entries.*1 -> NoDup (id <$> docs_of entries).
Proof.
  induction entries as [|[file [t|why]] rest IH]; simpl; intros Hown Hnd.
  - constructor.
  - apply NoDup_cons in Hnd as [Hfile Hnd]. apply NoDup_cons. split.
    + intros Hin. apply list_elem_of_fmap in Hin as (t' & Hid & Hin).
      apply elem_of_docs_of in Hin as [k Hin].
      assert (id t' = k) as <- by (apply Hown; by right).
      assert (id t = file) as Hf by (apply Hown; by left).
      apply Hfile. rewrite <- Hf, Hid.
      apply list_elem_of_fmap. by exists (id t', Doc t').
    + apply IH; [|done]. intros k t' Hin. apply Hown. by right.
  - apply NoDup_cons in Hnd as [_ Hnd]. apply IH; [|done].
    intros k t' Hin. apply Hown. by right.
Qed.

Lemma listed_iff (m : gmap string FileData) t :
  t ∈ docs_of (map_to_list m) <-> exists k, m !! k = Some (Doc t).
Proof.
  rewrite elem_of_docs_of. by setoid_rewrite elem_of_map_to_list.
Qed.

Lemma listed_NoDup (m : gmap string FileData) :
  own_ids m -> NoDup (id <$> docs_of (map_to_list m)).
Proof.
  intros Hm. apply docs_of_NoDup; [|apply NoDup_fst_map_to_list].
  intros k t Hin. apply elem_of_map_to_list in Hin. by apply (own_ids_lookup m).
Qed.

Lemma parse_files_keeps_trace entries : forall acc w e,
  e ∈ trace w -> e ∈ trace (snd (parse_files entries acc w)).
Proof.
  induction entries as [|[file [t|why]] rest IH]; intros acc w e He; simpl.
  - done.
  - by apply IH.
  - run_monad. apply IH. cbn. by right.
Qed.

Lemma parse_files_logs entries : forall acc w file why,
  (file, Malformed why) ∈ entries ->
  ConsoleError ("Failed to parse task file: " +:+ file +:+ ".json")
    ∈ trace (snd (parse_files entries acc w)).
Proof.
  induction entries as [|[file' [t|why']] rest IH]; intros acc w file why Hin;
    simpl.
  - inversion Hin.
  - apply elem_of_cons in Hin as [[=]|Hin]. by apply IH with why.
  - run_monad. apply elem_of_cons in Hin as [[= -> ->]|Hin].
    + apply parse_files_keeps_trace. cbn. by left.
    + by apply IH with why.
Qed.

End Listing.

Section Tick.

Variable E : Env.

Lemma bind_ok {A B} (m : M A) (f : A -> M B) w a w' :
  m w = (Ok a, w') -> (m ≫= f) w = f a w'.
Proof. intros H. unfold mbind, M_bind. by rewrite H. Qed.

Lemma bind_throw {A B} (m : M A) (f : A -> M B) w e w' :
  m w = (Throw e, w') -> (m ≫= f) w = (Throw e, w').
Proof. intros H. unfold mbind, M_bind. by rewrite H. Qed.

Lemma for_of_poll_quiet tasks : forall w,
  (forall t, t ∈ tasks -> verdict E t = None) ->
  exists tr, for_of tasks (poll E) w =
    (Ok tt, {| files := files w; reads := reads w; trace := tr |}).
Proof.
  induction tasks as [|t rest IH]; intros w Hq; simpl.
  - destruct w. by eexists.
  - destruct (poll_quiet E t w) as [tr Ht]; [apply Hq; by left|].
    rewrite (bind_ok _ _ _ _ _ Ht).
    destruct (IH {| files := files w; reads := reads w; trace := tr |})
      as [tr' ->]; [intros t' Hin; apply Hq; by right|].
    by eexists.
Qed.

(** The effect of the loop on a store that still holds every listed task
    under its own id. *)
Lemma for_of_poll_spec tasks : forall w,
  NoDup (id <$> tasks) ->
  (forall t, t ∈ tasks -> files w !! id t = Some (Doc t)) ->
  exists w', for_of tasks (poll E) w = (Ok tt, w') /\
    reads w <= reads w' /\
    (forall k, k ∉ id <$> tasks -> files w' !! k = files w !! k) /\
    (forall t, t ∈ tasks ->
       match verdict E t with
       | None => files w' !! id t = Some (Doc t)
       | Some ns => exists n, reads w <= n < reads w' /\
           files w' !! id t =
             Some (Doc (spread t (with_status ns no_updates) (now E n)))
       end).
Proof.
  induction tasks as [|t rest IH]; intros w Hnd Hin; simpl.
  - exists w. split; [done|]. split; [done|]. split; [done|].
    intros t Ht. inversion Ht.
  - apply NoDup_cons in Hnd as [Hfresh Hnd].
    assert (files w !! id t = Some (Doc t)) as Hhere by (apply Hin; by left).
    assert (exists w1, poll E t w = (Ok tt, w1) /\ reads w <= reads w1 /\
              (forall k, k <> id t -> files w1 !! k = files w !! k) /\
              match verdict E t with
              | None => files w1 !! id t = Some (Doc t)
              | Some ns => reads w < reads w1 /\ files w1 !! id t =
                  Some (Doc (spread t (with_status ns no_updates)
                               (now E (reads w))))
              end) as (w1 & Hpoll & Hle & Hframe & Hhead).
    { destruct (verdict E t) as [ns|] eqn:Hv.
      - destruct (poll_write E t t ns w Hv Hhere) as [tr ->].
        eexists. split; [done|]. cbn. split; [lia|]. split.
        + intros k Hk. by rewrite lookup_insert_ne.
        + split; [lia|]. by rewrite lookup_insert_eq.
      - destruct (poll_quiet E t w Hv) as [tr ->].
        eexists. split; [done|]. cbn. auto. }
    rewrite (bind_ok _ _ _ _ _ Hpoll).
    destruct (IH w1 Hnd) as (w' & Hrun & Hle' & Hframe' & Hrest).
    { intros t' Ht'. rewrite Hframe; [apply Hin; by right|].
      intros Heq. apply Hfresh. rewrite <- Heq.
      apply list_elem_of_fmap. by exists t'. }
    exists w'. split; [done|]. split; [lia|]. split.
    + intros k Hk. apply not_elem_of_cons in Hk as [Hk1 Hk2].
      rewrite Hframe' by done. by apply Hframe.
    + intros t' Ht'. apply elem_of_cons in Ht' as [->|Ht'].
      * rewrite (Hframe' (id t) Hfresh).
        destruct (verdict E t) as [ns|]; [|done].
        destruct Hhead as [Hlt Hhead]. exists (reads w). split; [lia|done].
      * specialize (Hrest t' Ht'). destruct (verdict E t') as [ns|]; [|done].
        destruct Hrest as (n & Hn & Hlook). exists n. split; [lia|done].
Qed.

(** One tick on a store of records filed under their own ids. *)
Lemma run_spec w :
  own_ids (files w) ->
  exists w', run E w = (Ok tt, w') /\ reads w <= reads w' /\
    forall k,
      match files w !! k with
      | Some (Doc t) =>
          match verdict E t with
          | None => files w' !! k = Some (Doc t)
          | Some ns => exists n, reads w <= n < reads w' /\
              files w' !! k =
                Some (Doc (spread t (with_status ns no_updates) (now E n)))
          end
      | other => files w' !! k = other
      end.
Proof.
  intros Hown. unfold run.
  destruct (listTasks_spec w) as [tr Hlist].
  rewrite (bind_ok _ _ _ _ _ Hlist).
  set (w0 := {| files := files w; reads := reads w; trace := tr |}).
  destruct (for_of_poll_spec (docs_of (map_to_list (files w))) w0)
    as (w' & Hrun & Hle & Hframe & Hdocs).
  { by apply listed_NoDup. }
  { intros t Ht. apply listed_iff in Ht as [k Hk]. cbn.
    by rewrite (own_ids_lookup _ _ _ Hown Hk). }
  exists w'. split; [done|]. split; [done|]. intros k.
  destruct (files w !! k) as [[t|why]|] eqn:Hk.
  - assert (id t = k) as Hid by by apply (own_ids_lookup (files w)).
    assert (t ∈ docs_of (map_to_list (files w))) as Ht
      by (apply listed_iff; by exists k).
    specialize (Hdocs t Ht). by rewrite Hid in Hdocs.
  - rewrite Hframe; [done|]. intros Hin.
    apply list_elem_of_fmap in Hin as (t & -> & Ht).
    apply listed_iff in Ht as [k' Hk'].
    rewrite (own_ids_lookup _ _ _ Hown Hk') in Hk. congruence.
  - rewrite Hframe; [done|]. intros Hin.
    apply list_elem_of_fmap in Hin as (t & -> & Ht).
    apply listed_iff in Ht as [k' Hk'].
    rewrite (own_ids_lookup _ _ _ Hown Hk') in Hk. congruence.
Qed.

End Tick.

Section Gateway.

Variable E : Env.

(** The events of the best-effort remote cancellation. *)
Lemma cancelTask_spec i t w :
  files w !! i = Some (Doc t) -> id t = i ->
  let t' := spread t (with_status CANCELLED no_updates) (now E (reads w)) in
  cancelTask E i w =
    (Ok (Some t'),
     {| files := <[i := Doc t']> (files w);
        reads := S (reads w);
        trace :=
          match julesSessionId t with
          | Some (String c r) =>
              match post_cancel E (String c r) with
              | Ok _ => [PostCancel (String c r)]
              | Throw _ =>
                  [ConsoleWarn "Failed to cancel Jules session";
                   PostCancel (String c r)]
              end
          | _ => []
          end ++ trace w |}).
Proof.
  intros Hi Hid t'. unfold cancelTask.
  rewrite (bind_ok _ _ _ _ _ (getTask_doc i t w Hi)).
  destruct w as [m n tr]. cbn in *.
  assert (forall tr',
    (updateTask E i (with_status CANCELLED no_updates) ;; getTask i)
      {| files := m; reads := n; trace := tr' |} =
    (Ok (Some t'),
     {| files := <[i := Doc t']> m; reads := S n; trace := tr' |})) as Hrest.
  { intros tr'. erewrite bind_ok; [|by apply updateTask_doc].
    cbn. rewrite Hid. apply getTask_doc. cbn. by rewrite lookup_insert_eq. }
  destruct (julesSessionId t) as [[|c r]|].
  - erewrite bind_ok; [|reflexivity]. apply Hrest.
  - unfold cancelSession. run_monad.
    destruct (post_cancel E (String c r)) as [[]|e]; cbn; apply Hrest.
  - erewrite bind_ok; [|reflexivity]. apply Hrest.
Qed.

Lemma cancelTask_missing i w :
  files w !! i = None ->
  cancelTask E i w = (Throw (Error "Task not found"), w).
Proof.
  intros Hi. unfold cancelTask.
  by rewrite (bind_ok _ _ _ _ _ (getTask_missing i w Hi)).
Qed.

Lemma cancelTask_malformed i why w :
  files w !! i = Some (Malformed why) ->
  cancelTask E i w = (Throw (SyntaxError why), w).
Proof.
  intros Hi. unfold cancelTask.
  by rewrite (bind_throw _ _ _ _ _ (getTask_malformed i why w Hi)).
Qed.

Lemma approveTask_no_session i t w :
  files w !! i = Some (Doc t) -> truthy (julesSessionId t) = false ->
  approveTask E i w = (Throw (Error "Task not found or no session"), w).
Proof.
  intros Hi Hs. unfold approveTask.
  rewrite (bind_ok _ _ _ _ _ (getTask_doc i t w Hi)).
  by destruct (julesSessionId t) as [[|c r]|].
Qed.

Lemma approveTask_missing i w :
  files w !! i = None ->
  approveTask E i w = (Throw (Error "Task not found or no session"), w).
Proof.
  intros Hi. unfold approveTask.
  by rewrite (bind_ok _ _ _ _ _ (getTask_missing i w Hi)).
Qed.

Lemma approveTask_not_waiting i t w :
  files w !! i = Some (Doc t) -> truthy (julesSessionId t) = true ->
  status t <> WAITING_FOR_PLAN_APPROVAL ->
  status t <> WAITING_FOR_DIFF_APPROVAL ->
  approveTask E i w =
    (Throw (Error "Task is not in a state waiting for approval"), w).
Proof.
  intros Hi Hs Hp Hd. unfold approveTask.
  rewrite (bind_ok _ _ _ _ _ (getTask_doc i t w Hi)).
  destruct (julesSessionId t) as [[|c r]|]; try done.
  by repeat case_decide.
Qed.

(** Approval of a waiting task: the request, then the write if it succeeded. *)
Lemma approveTask_waiting i t sid w (call : string -> Result unit)
    (ev : string -> Event) (next : TaskStatus) :
  files w !! i = Some (Doc t) -> id t = i ->
  julesSessionId t = Some sid -> truthy (Some sid) = true ->
  (status t = WAITING_FOR_PLAN_APPROVAL /\ call = post_approvePlan E /\
     ev = PostApprovePlan /\ next = RUNNING) \/
  (status t = WAITING_FOR_DIFF_APPROVAL /\ call = post_approveDiff E /\
     ev = PostApproveDiff /\ next = READY_FOR_PR) ->
  let t' := spread t (with_status next no_updates) (now E (reads w)) in
  approveTask E i w =
    match call sid with
    | Ok _ =>
        (Ok (Some t'),
         {| files := <[i := Doc t']> (files w); reads := S (reads w);
            trace := ev sid :: trace w |})
    | Throw e =>
        (Throw e,
         {| files := files w; reads := reads w; trace := ev sid :: trace w |})
    end.
Proof.
  intros Hi Hid Hs Hsid Hcase t'. unfold approveTask.
  rewrite (bind_ok _ _ _ _ _ (getTask_doc i t w Hi)). rewrite Hs.
  destruct sid as [|c r]; [done|]. destruct w as [m n tr]. cbn in *.
  destruct Hcase as [(Hst & -> & -> & ->)|(Hst & -> & -> & ->)]; rewrite Hst.
  - rewrite decide_True by done. unfold approvePlan. run_monad.
    destruct (post_approvePlan E (String c r)) as [[]|e]; [|done].
    unfold updateTask. run_monad. rewrite Hi. cbn. rewrite Hid.
    by rewrite lookup_insert_eq.
  - rewrite decide_False by done. rewrite decide_True by done.
    unfold approveDiff. run_monad.
    destruct (post_approveDiff E (String c r)) as [[]|e]; [|done].
    unfold updateTask. run_monad. rewrite Hi. cbn. rewrite Hid.
    by rewrite lookup_insert_eq.
Qed.

Lemma createPrForTask_missing i branch ti bo w :
  files w !! i = None ->
  createPrForTask E i branch ti bo w = (Throw (Error "Task not found"), w).
Proof.
  intros Hi. unfold createPrForTask.
  by rewrite (bind_ok _ _ _ _ _ (getTask_missing i w Hi)).
Qed.

Lemma createPrForTask_not_ready i branch ti bo t w :
  files w !! i = Some (Doc t) -> status t <> READY_FOR_PR ->
  createPrForTask E i branch ti bo w =
    (Throw (Error "Task is not ready for PR"), w).
Proof.
  intros Hi Hst. unfold createPrForTask.
  rewrite (bind_ok _ _ _ _ _ (getTask_doc i t w Hi)).
  by rewrite decide_True.
Qed.

Lemma createPrForTask_ready i branch ti bo t w :
  files w !! i = Some (Doc t) -> id t = i -> status t = READY_FOR_PR ->
  let req := pulls_request (repo t) branch (or_else ti (title t))
               (or_else bo (description t)) in
  createPrForTask E i branch ti bo w =
    match post_pulls E req with
    | Ok prUrl =>
        let t' := spread t (with_githubPrUrl prUrl
                              (with_status PR_CREATED no_updates))
                    (now E (reads w)) in
        (Ok (Some t'),
         {| files := <[i := Doc t']> (files w); reads := S (reads w);
            trace := PostPulls req :: trace w |})
    | Throw e =>
        (Throw e,
         {| files := files w; reads := reads w;
            trace := PostPulls req :: trace w |})
    end.
Proof.
  intros Hi Hid Hst req. unfold createPrForTask.
  rewrite (bind_ok _ _ _ _ _ (getTask_doc i t w Hi)).
  rewrite decide_False by (intros H; by apply H).
  unfold createPr. fold req. destruct w as [m n tr]. run_monad.
  destruct (post_pulls E req) as [prUrl|e]; [|done].
  unfold updateTask. run_monad. cbn in Hi. rewrite Hi. cbn. rewrite Hid.
  by rewrite lookup_insert_eq.
Qed.

Lemma createTask_spec rnd ti de re w :
  let task :=
    {| id := rnd; title := ti; description := de;
       repo := or_else re (defaultRepo E); status := NEW;
       julesSessionId := None; githubPrUrl := None;
       createdAt := now E (reads w); updatedAt := now E (S (reads w));
       error := None |} in
  let post := PostSessions (or_else re (defaultRepo E)) de in
  createTask E rnd ti de re w =
    match post_sessions E (or_else re (defaultRepo E)) de with
    | Ok sessionId =>
        let t' := spread task (with_julesSessionId sessionId
                                 (with_status PLANNING no_updates))
                    (now E (S (S (reads w)))) in
        (Ok t',
         {| files := <[rnd := Doc t']> (files w); reads := S (S (S (reads w)));
            trace := post :: trace w |})
    | Throw e =>
        let t' := spread task (with_status FAILED
                                 (with_error (message e) no_updates))
                    (now E (S (S (reads w)))) in
        (Ok t',
         {| files := <[rnd := Doc t']> (files w); reads := S (S (S (reads w)));
            trace := ConsoleError "Error creating Jules session:" :: post
                       :: trace w |})
    end.
Proof.
  intros task post. unfold createTask, createSession, updateTask.
  destruct w as [m n tr]. run_monad.
  destruct (post_sessions E (or_else re (defaultRepo E)) de) as [sid|e]; cbn;
    rewrite lookup_insert_eq; cbn; by rewrite insert_insert_eq.
Qed.

Lemma approveTask_malformed i why w :
  files w !! i = Some (Malformed why) ->
  approveTask E i w = (Throw (SyntaxError why), w).
Proof.
  intros Hi. unfold approveTask.
  by rewrite (bind_throw _ _ _ _ _ (getTask_malformed i why w Hi)).
Qed.

Lemma createPrForTask_malformed i branch ti bo why w :
  files w !! i = Some (Malformed why) ->
  createPrForTask E i branch ti bo w = (Throw (SyntaxError why), w).
Proof.
  intros Hi. unfold createPrForTask.
  by rewrite (bind_throw _ _ _ _ _ (getTask_malformed i why w Hi)).
Qed.

End Gateway.

Section Reachable.

Variable E : Env.

Lemma evolves_same w w' :
  files w' = files w -> reads w' = reads w -> evolves E w w'.
Proof. intros Hf Hr. split; [lia|]. intros k. left. by rewrite Hf. Qed.

Lemma evolves_update w w' i t u :
  files w !! i = Some (Doc t) -> id t = i -> keeps_identity u ->
  files w' = <[i := Doc (spread t u (now E (reads w)))]> (files w) ->
  reads w' = S (reads w) ->
  evolves E w w'.
Proof.
  intros Hi Hid Hu Hf Hr. split; [lia|]. intros k. rewrite Hf.
  destruct (decide (i = k)) as [<-|Hne].
  - right. eexists. rewrite lookup_insert_eq. split; [done|].
    exists t, u, (reads w).
    split; [done|]. split; [lia|]. split; [done|]. split; [done|]. by left.
  - left. by rewrite lookup_insert_ne.
Qed.

Lemma keeps_identity_status s : keeps_identity (with_status s no_updates).
Proof. by split. Qed.

Lemma evolves_approveTask i w :
  own_ids (files w) -> evolves E w (snd (approveTask E i w)).
Proof.
  intros Hown. destruct (files w !! i) as [[t|why]|] eqn:Hi.
  - pose proof (own_ids_lookup _ _ _ Hown Hi) as Hid.
    destruct (truthy (julesSessionId t)) eqn:Hs.
    + destruct (julesSessionId t) as [sid|] eqn:Hsid; [|done].
      destruct (decide (status t = WAITING_FOR_PLAN_APPROVAL)) as [Hp|Hp].
      { rewrite (approveTask_waiting E i t sid w (post_approvePlan E)
                   PostApprovePlan RUNNING) by auto.
        destruct (post_approvePlan E sid);
          [eapply evolves_update; eauto using keeps_identity_status
          |by apply evolves_same]. }
      destruct (decide (status t = WAITING_FOR_DIFF_APPROVAL)) as [Hd|Hd].
      { rewrite (approveTask_waiting E i t sid w (post_approveDiff E)
                   PostApproveDiff READY_FOR_PR) by auto.
        destruct (post_approveDiff E sid);
          [eapply evolves_update; eauto using keeps_identity_status
          |by apply evolves_same]. }
      rewrite (approveTask_not_waiting E i t w); auto.
      * by apply evolves_same.
      * by rewrite Hsid.
    + rewrite (approveTask_no_session E i t w) by done. by apply evolves_same.
  - rewrite (approveTask_malformed E i why w) by done. by apply evolves_same.
  - rewrite (approveTask_missing E i w) by done. by apply evolves_same.
Qed.

Lemma evolves_cancelTask i w :
  own_ids (files w) -> evolves E w (snd (cancelTask E i w)).
Proof.
  intros Hown. destruct (files w !! i) as [[t|why]|] eqn:Hi.
  - pose proof (own_ids_lookup _ _ _ Hown Hi) as Hid.
    rewrite (cancelTask_spec E i t w) by done.
    eapply evolves_update; eauto using keeps_identity_status.
  - rewrite (cancelTask_malformed E i why w) by done. by apply evolves_same.
  - rewrite (cancelTask_missing E i w) by done. by apply evolves_same.
Qed.

Lemma evolves_createPrForTask i branch ti bo w :
  own_ids (files w) -> evolves E w (snd (createPrForTask E i branch ti bo w)).
Proof.
  intros Hown. destruct (files w !! i) as [[t|why]|] eqn:Hi.
  - pose proof (own_ids_lookup _ _ _ Hown Hi) as Hid.
    destruct (decide (status t = READY_FOR_PR)) as [Hr|Hr].
    + rewrite (createPrForTask_ready E i branch ti bo t w) by done.
      destruct (post_pulls E _); [|by apply evolves_same].
      eapply evolves_update; eauto. by split.
    + rewrite (createPrForTask_not_ready E i branch ti bo t w) by done.
      by apply evolves_same.
  - rewrite (createPrForTask_malformed E i branch ti bo why w) by done.
    by apply evolves_same.
  - rewrite (createPrForTask_missing E i branch ti bo w) by done.
    by apply evolves_same.
Qed.

Lemma evolves_createTask rnd ti de re w :
  evolves E w (snd (createTask E rnd ti de re w)).
Proof.
  rewrite createTask_spec.
  destruct (post_sessions E (or_else re (defaultRepo E)) de) as [sid|e]; cbn.
  - split; [cbn; lia|]. intros k. cbn. destruct (decide (rnd = k)) as [<-|Hne].
    + right. eexists. rewrite lookup_insert_eq. split; [done|].
      eexists _, _, (S (S (reads w))). split; [|split; [|split; [done|]]].
      * by split.
      * cbn. lia.
      * split; [done|]. right. exists (reads w). cbn. split; [lia|done].
    + left. by rewrite lookup_insert_ne.
  - split; [cbn; lia|]. intros k. cbn. destruct (decide (rnd = k)) as [<-|Hne].
    + right. eexists. rewrite lookup_insert_eq. split; [done|].
      eexists _, _, (S (S (reads w))). split; [|split; [|split; [done|]]].
      * by split.
      * cbn. lia.
      * split; [done|]. right. exists (reads w). cbn. split; [lia|done].
    + left. by rewrite lookup_insert_ne.
Qed.

Lemma evolves_run w : own_ids (files w) -> evolves E w (snd (run E w)).
Proof.
  intros Hown. destruct (run_spec E w Hown) as (w' & -> & Hle & Hk). cbn.
  split; [done|]. intros k. specialize (Hk k).
  destruct (files w !! k) as [[t|why]|] eqn:Hlook; auto.
  destruct (verdict E t) as [ns|]; auto.
  destruct Hk as (n & Hn & Hk). right. eexists. split; [done|].
  exists t, (with_status ns no_updates), n.
  split; [done|]. split; [done|]. split; [done|].
  split; [by apply (own_ids_lookup (files w))|by left].
Qed.

Lemma exec_evolves c w : own_ids (files w) -> evolves E w (exec E c w).
Proof.
  intros Hown. destruct c; simpl.
  - apply evolves_createTask.
  - destruct (listTasks_spec w) as [tr ->]. by apply evolves_same.
  - rewrite getTask_world. by apply evolves_same.
  - by apply evolves_approveTask.
  - by apply evolves_cancelTask.
  - by apply evolves_createPrForTask.
  - by apply evolves_run.
Qed.

Lemma own_ids_evolves w w' :
  own_ids (files w) -> evolves E w w' -> own_ids (files w').
Proof.
  intros Hown [_ Hev] k d Hk. destruct (Hev k) as [Heq|(t' & Hk' & Hw)].
  - rewrite Heq in Hk. by apply Hown.
  - rewrite Hk' in Hk. injection Hk as <-.
    destruct Hw as (t & u & j & [Hu _] & _ & -> & Hid & _).
    cbn. by rewrite Hu.
Qed.

Lemma Inv_evolves w w' : Inv E w -> evolves E w w' -> Inv E w'.
Proof.
  intros [Hown Hst] [Hle Hev]. split.
  - intros k d Hk. destruct (Hev k) as [Heq|(t' & Hk' & Hw)].
    + rewrite Heq in Hk. by apply Hown.
    + rewrite Hk' in Hk. injection Hk as <-.
      destruct Hw as (t & u & j & [Hu _] & _ & -> & Hid & _).
      cbn. by rewrite Hu.
  - intros k t' Hk. destruct (Hev k) as [Heq|(t'' & Hk' & Hw)].
    + rewrite Heq in Hk. destruct (Hst k t' Hk) as (i & j & Hij & Hc & Hu).
      exists i, j. split; [lia|done].
    + rewrite Hk' in Hk. injection Hk as <-.
      destruct Hw as (t & u & j & [_ Hu] & Hj & -> & Hid & [Hold|(i & Hi & Hc)]).
      * destruct (Hst k t Hold) as (i0 & j0 & Hij & Hc & _).
        exists i0, j. cbn. rewrite Hu. cbn. split; [lia|done].
      * exists i, j. cbn. rewrite Hu. cbn. split; [lia|done].
Qed.

Lemma Inv_boot : Inv E boot.
Proof.
  split.
  - apply map_Forall_empty.
  - intros k t Hk. cbn in Hk. by rewrite lookup_empty in Hk.
Qed.

Lemma Inv_execs cs : forall w, Inv E w -> Inv E (execs E cs w).
Proof.
  induction cs as [|c cs IH]; intros w Hw; [done|].
  cbn. apply IH. eapply Inv_evolves; [done|]. apply exec_evolves, Hw.
Qed.

End Reachable.

(** * Runs under changing remote answers *)

Section Runs.

(** The clock every step of the run reads. *)
Variable E : Env.

Lemma Inv_same_clock E' w :
  (forall n, now E' n = now E n) -> Inv E' w -> Inv E w.
Proof.
  intros Hclock [Hown Hst]. split; [done|]. intros k t Hk.
  destruct (Hst k t Hk) as (i & j & Hij & Hc & Hu).
  exists i, j. by rewrite <- !Hclock.
Qed.

Lemma Inv_same_clock_back E' w :
  (forall n, now E' n = now E n) -> Inv E w -> Inv E' w.
Proof.
  intros Hclock [Hown Hst]. split; [done|]. intros k t Hk.
  destruct (Hst k t Hk) as (i & j & Hij & Hc & Hu).
  exists i, j. by rewrite !Hclock.
Qed.

Lemma Inv_runs steps : forall w,
  Forall (fun s => forall n, now (fst s) n = now E n) steps ->
  Inv E w -> Inv E (runs steps w).
Proof.
  induction steps as [|[E' c] steps IH]; intros w Hsteps Hw; [done|].
  apply Forall_cons in Hsteps as [Hclock Hsteps]. cbn in *.
  apply IH; [done|]. apply (Inv_same_clock E'); [done|].
  eapply Inv_evolves; [by apply Inv_same_clock_back|].
  apply exec_evolves, Hw.
Qed.

End Runs.

(** * The scenarios of the specification, run on the model *)

Example scenario_create :
  fst (createTask happy_env "t1" "fix bug" "crash on start" (Some "org/app") boot)
  = Ok {| id := "t1"; title := "fix bug"; description := "crash on start";
          repo := "org/app"; status := PLANNING; julesSessionId := Some "s1";
          githubPrUrl := None; createdAt := 1000; updatedAt := 1002;
          error := None |}.
Proof. reflexivity. Qed.

Example scenario_tick_done :
  files (snd (run happy_env (world_with (sample_task RUNNING)))) !! "t1"
  = Some (Doc {| id := "t1"; title := "fix bug";
                 description := "crash on start"; repo := "org/app";
                 status := READY_FOR_PR; julesSessionId := Some "s1";
                 githubPrUrl := None; createdAt := 1000; updatedAt := 1003;
                 error := None |}).
Proof. vm_compute. reflexivity. Qed.

Example scenario_approve_diff :
  exists w',
    approveTask happy_env "t1" (world_with (sample_task WAITING_FOR_DIFF_APPROVAL))
    = (Ok (Some {| id := "t1"; title := "fix bug";
                   description := "crash on start"; repo := "org/app";
                   status := READY_FOR_PR; julesSessionId := Some "s1";
                   githubPrUrl := None; createdAt := 1000; updatedAt := 1003;
                   error := None |}), w') /\
    trace w' = [PostApproveDiff "s1"].
Proof. eexists. split; [vm_compute; reflexivity|reflexivity]. Qed.

Example scenario_create_pr :
  exists w',
    createPrForTask happy_env "t1" "agent/s1" None None
      (world_with (sample_task READY_FOR_PR))
    = (Ok (Some {| id := "t1"; title := "fix bug";
                   description := "crash on start"; repo := "org/app";
                   status := PR_CREATED; julesSessionId := Some "s1";
                   githubPrUrl := Some "https://host/org/app/pull/7";
                   createdAt := 1000; updatedAt := 1003; error := None |}), w') /\
    trace w' =
      [PostPulls {| pr_url := "https://api.github.com/repos/org/app/pulls";
                    pr_title := "fix bug"; pr_body := "crash on start";
                    pr_head := "agent/s1"; pr_base := "main" |}].
Proof. eexists. split; [vm_compute; reflexivity|reflexivity]. Qed.

(** * The claims *)

Section Claims.

Variable E : Env.

(** C1 (as the code has it). [cancelTask] has no guard on the status: on a
    stored task in a terminal state (MERGED, CANCELLED or FAILED) it does not
    fail; it returns the task with status CANCELLED, persists it, and sets
    [updatedAt] to the clock reading of the update, every other field kept. *)
Theorem cancelTask_terminal i t w :
  files w !! i = Some (Doc t) -> id t = i -> terminal (status t) = true ->
  exists t' w', cancelTask E i w = (Ok (Some t'), w') /\
    files w' !! i = Some (Doc t') /\ status t' = CANCELLED /\
    updatedAt t' = now E (reads w) /\ reads w' = S (reads w) /\
    same_but_status t t'.
Proof.
  intros Hi Hid _. rewrite (cancelTask_spec E i t w Hi Hid).
  eexists _, _. split; [done|]. cbn. rewrite lookup_insert_eq.
  split; [done|]. split; [done|]. split; [done|]. split; [done|].
  apply spread_status_same.
Qed.

(** C3. [createTask] always returns the task it persisted: in PLANNING with
    the session id the remote call returned when that call succeeds, in FAILED
    with [error] holding the failure's message when it is rejected; never in
    NEW, and never by throwing. *)
Theorem createTask_PLANNING_or_FAILED rnd ti de re w :
  exists t w', createTask E rnd ti de re w = (Ok t, w') /\
    files w' !! rnd = Some (Doc t) /\ status t <> NEW /\
    match post_sessions E (or_else re (defaultRepo E)) de with
    | Ok sessionId =>
        status t = PLANNING /\ julesSessionId t = Some sessionId
    | Throw e => status t = FAILED /\ error t = Some (message e)
    end.
Proof.
  rewrite createTask_spec.
  destruct (post_sessions E (or_else re (defaultRepo E)) de) as [sid|e];
    eexists _, _; (split; [done|]); cbn; rewrite lookup_insert_eq; done.
Qed.

(** C5. On a stored task [cancelTask] ends with the task persisted in status
    CANCELLED whatever the remote side does: when the session-cancel request
    is rejected the failure is logged by a console warning and swallowed, and
    when the task has no session id no request is made at all. *)
Theorem cancelTask_always_CANCELLED i t w :
  files w !! i = Some (Doc t) -> id t = i ->
  exists t' w', cancelTask E i w = (Ok (Some t'), w') /\
    files w' !! i = Some (Doc t') /\ status t' = CANCELLED /\
    (truthy (julesSessionId t) = false -> trace w' = trace w) /\
    (forall sid e, julesSessionId t = Some sid -> truthy (Some sid) = true ->
       post_cancel E sid = Throw e ->
       trace w' = ConsoleWarn "Failed to cancel Jules session"
                    :: PostCancel sid :: trace w).
Proof.
  intros Hi Hid. rewrite (cancelTask_spec E i t w Hi Hid).
  eexists _, _. split; [done|]. cbn. rewrite lookup_insert_eq.
  split; [done|]. split; [done|]. split.
  - by destruct (julesSessionId t) as [[|c r]|].
  - intros sid e -> Hsid Hfail. destruct sid as [|c r]; [done|].
    by rewrite Hfail.
Qed.

(** C6 (as the code has it). On a stored task: without a session id approval
    fails with "Task not found or no session"; with one, a status other than
    the two waiting ones fails with the InvalidState error; both leave the
    world, hence the task and its [updatedAt], untouched. With a session id in
    WAITING_FOR_PLAN_APPROVAL (WAITING_FOR_DIFF_APPROVAL) the plan (diff)
    approval request is sent; if it succeeds the persisted status becomes
    RUNNING (READY_FOR_PR), and if it is rejected the error reaches the caller
    and files and clock are as before. *)
Theorem approveTask_dispatch i t w :
  files w !! i = Some (Doc t) -> id t = i ->
  (truthy (julesSessionId t) = false ->
     approveTask E i w = (Throw (Error "Task not found or no session"), w)) /\
  (truthy (julesSessionId t) = true ->
   status t <> WAITING_FOR_PLAN_APPROVAL ->
   status t <> WAITING_FOR_DIFF_APPROVAL ->
     exists e, InvalidState e /\ approveTask E i w = (Throw e, w)) /\
  (forall sid call ev next,
     julesSessionId t = Some sid -> truthy (Some sid) = true ->
     (status t = WAITING_FOR_PLAN_APPROVAL /\ call = post_approvePlan E /\
        ev = PostApprovePlan /\ next = RUNNING) \/
     (status t = WAITING_FOR_DIFF_APPROVAL /\ call = post_approveDiff E /\
        ev = PostApproveDiff /\ next = READY_FOR_PR) ->
     exists r w', approveTask E i w = (r, w') /\
       trace w' = ev sid :: trace w /\
       match call sid with
       | Ok _ =>
           exists t', r = Ok (Some t') /\ files w' !! i = Some (Doc t') /\
             status t' = next /\ same_but_status t t'
       | Throw e =>
           r = Throw e /\ files w' = files w /\ reads w' = reads w
       end).
Proof.
  intros Hi Hid. split; [|split].
  - by apply approveTask_no_session.
  - intros Hs Hp Hd. eexists. split; [by left|].
    by apply approveTask_not_waiting with t.
  - intros sid call ev next Hsid Hs Hcase.
    rewrite (approveTask_waiting E i t sid w call ev next) by done.
    destruct (call sid) as [[]|e]; eexists _, _; (split; [done|]); cbn;
      (split; [done|]).
    + eexists. split; [done|]. rewrite lookup_insert_eq.
      split; [done|]. split; [done|]. apply spread_status_same.
    + done.
Qed.

(** C7. On a stored task whose status is not READY_FOR_PR,
    [createPrForTask] fails with the InvalidState error and the world is
    untouched, so a [githubPrUrl] that was unset stays unset; on a task in
    READY_FOR_PR for which the source-hosting request returns a URL, the task
    is persisted in PR_CREATED with [githubPrUrl] set to that URL. *)
Theorem createPrForTask_guard i branch ti bo t w :
  files w !! i = Some (Doc t) -> id t = i ->
  (status t <> READY_FOR_PR ->
     exists e, InvalidState e /\
       createPrForTask E i branch ti bo w = (Throw e, w) /\
       (githubPrUrl t = None ->
        forall t', files w !! i = Some (Doc t') -> githubPrUrl t' = None)) /\
  (status t = READY_FOR_PR ->
   forall prUrl,
     post_pulls E (pulls_request (repo t) branch (or_else ti (title t))
                     (or_else bo (description t))) = Ok prUrl ->
     exists t' w', createPrForTask E i branch ti bo w = (Ok (Some t'), w') /\
       files w' !! i = Some (Doc t') /\ status t' = PR_CREATED /\
       githubPrUrl t' = Some prUrl).
Proof.
  intros Hi Hid. split.
  - intros Hst. eexists. split; [by right|]. split.
    + by apply createPrForTask_not_ready with t.
    + intros Hnone t' Hi'. rewrite Hi in Hi'. by injection Hi' as <-.
  - intros Hst prUrl Hpost.
    rewrite (createPrForTask_ready E i branch ti bo t w Hi Hid Hst), Hpost.
    eexists _, _. split; [done|]. cbn. by rewrite lookup_insert_eq.
Qed.

(** C9. On a stored task in READY_FOR_PR, [createPrForTask] sends exactly one
    pull-request creation request, for the given branch; when the title
    argument is not supplied the request carries the task's title, and when
    the body argument is not supplied it carries the task's description. *)
Theorem createPrForTask_defaults i branch ti bo t w :
  files w !! i = Some (Doc t) -> status t = READY_FOR_PR ->
  exists req,
    trace (snd (createPrForTask E i branch ti bo w)) = PostPulls req :: trace w /\
    pr_head req = branch /\
    (ti = None -> pr_title req = title t) /\
    (bo = None -> pr_body req = description t).
Proof.
  intros Hi Hst. unfold createPrForTask.
  rewrite (bind_ok _ _ _ _ _ (getTask_doc i t w Hi)).
  rewrite decide_False by (intros H; by apply H).
  exists (pulls_request (repo t) branch (or_else ti (title t))
            (or_else bo (description t))).
  split; [|split; [done|split; by intros ->]].
  unfold createPr, updateTask. destruct w as [m n tr]. run_monad.
  destruct (post_pulls E _) as [prUrl|e]; [|done]. cbn in Hi. rewrite Hi. cbn.
  by repeat case_match.
Qed.

(** C10. When the file of an id holds data that does not parse, [getTask]
    (which is all the getTask gateway method runs) throws the parser's
    SyntaxError: it neither returns a record nor the not-found [null]. Only
    [listTasks] skips such a file: it still returns every record that parses
    and writes a console error naming the file. *)
Theorem getTask_throws_on_malformed i why w :
  files w !! i = Some (Malformed why) ->
  getTask i w = (Throw (SyntaxError why), w) /\
  exec E (GetTask i) w = w /\
  exists tasks w', listTasks w = (Ok tasks, w') /\
    (forall t, t ∈ tasks <-> exists k, files w !! k = Some (Doc t)) /\
    ConsoleError ("Failed to parse task file: " +:+ i +:+ ".json") ∈ trace w' /\
    files w' = files w.
Proof.
  intros Hi. split; [by apply getTask_malformed|]. split.
  { cbn. apply getTask_world. }
  destruct (listTasks_spec w) as [tr Hlist]. eexists _, _. split; [done|].
  split; [apply listed_iff|]. split; [|done].
  change tr with (trace (snd (Ok (docs_of (map_to_list (files w))),
    {| files := files w; reads := reads w; trace := tr |}))).
  rewrite <- Hlist. unfold listTasks. apply parse_files_logs with why.
  by apply elem_of_map_to_list.
Qed.

(** C4. When the status mapped from the fetched label equals the task's
    status the loop body writes nothing (files and clock are as before), and
    a label outside the five mapped strings always maps to the current status.
    Hence, on a store of records filed under their own ids, a second tick
    against the same remote answers leaves the files exactly as the first
    tick left them, every [updatedAt] included, and reads no clock. *)
Theorem run_twice_no_second_write w :
  own_ids (files w) ->
  (files (snd (run E (snd (run E w)))) = files (snd (run E w)) /\
   reads (snd (run E (snd (run E w)))) = reads (snd (run E w))) /\
  (forall t sid state w0,
     julesSessionId t = Some sid -> get_session E sid = Ok state ->
     mapState state (status t) = status t ->
     files (snd (poll E t w0)) = files w0 /\
     reads (snd (poll E t w0)) = reads w0) /\
  (forall state current,
     state <> Some "WAITING_FOR_USER_PLAN_APPROVAL" ->
     state <> Some "WAITING_FOR_USER_DIFF_APPROVAL" ->
     state <> Some "DONE" -> state <> Some "FAILED" ->
     state <> Some "ERROR" ->
     mapState state current = current).
Proof.
  intros Hown. split; [|split].
  - destruct (run_spec E w Hown) as (w1 & -> & _ & Hk). cbn.
    assert (forall t, t ∈ docs_of (map_to_list (files w1)) ->
              verdict E t = None) as Hquiet.
    { intros t1 Ht1. apply listed_iff in Ht1 as [k Hk1]. specialize (Hk k).
      destruct (files w !! k) as [[t|why]|]; [|congruence..].
      destruct (verdict E t) as [ns|] eqn:Hv.
      - destruct Hk as (n & _ & Hk). rewrite Hk in Hk1. injection Hk1 as <-.
        apply verdict_unpolled. cbn. by apply (verdict_polled E t). 
      - rewrite Hk in Hk1. by injection Hk1 as <-. }
    unfold run. destruct (listTasks_spec w1) as [tr Hlist].
    rewrite (bind_ok _ _ _ _ _ Hlist).
    destruct (for_of_poll_quiet E _
                {| files := files w1; reads := reads w1; trace := tr |} Hquiet)
      as [tr' ->].
    done.
  - intros t sid state w0 Hs Hget Hmap.
    destruct (poll_quiet E t w0) as [tr ->]; [|done].
    by apply (poll_same_status E t sid state).
  - apply mapState_other.
Qed.

(** C8. On a store of records filed under their own ids, every record found
    after a tick is the record the same file held before it, equal to it in
    [id], [title], [description], [repo], [julesSessionId], [githubPrUrl],
    [createdAt] and [error]: the loop's write touches [status] and
    [updatedAt] only. *)
Theorem run_changes_status_only w k t' :
  own_ids (files w) ->
  files (snd (run E w)) !! k = Some (Doc t') ->
  exists t, files w !! k = Some (Doc t) /\ same_but_status t t'.
Proof.
  intros Hown. destruct (run_spec E w Hown) as (w1 & -> & _ & Hk). cbn.
  specialize (Hk k). intros Hk1.
  destruct (files w !! k) as [[t|why]|]; [|congruence..].
  exists t. split; [done|]. destruct (verdict E t) as [ns|].
  - destruct Hk as (n & _ & Hk). rewrite Hk in Hk1. injection Hk1 as <-.
    apply spread_status_same.
  - rewrite Hk in Hk1. injection Hk1 as <-. by repeat split.
Qed.

(** C2 (as the code has it). Take any run of commands and ticks from the
    empty store, each step meeting its own remote answers, all steps reading
    one clock that never goes back. Every stored task has [createdAt] <=
    [updatedAt]. Across one more command or tick the [updatedAt] of a task
    never decreases, and if the record changed, its new [updatedAt] is a
    clock reading taken during that command by [updateTask]'s merge, later in
    reading order than the one it replaces: strictly greater exactly when the
    clock moved between the two readings. *)
Theorem updatedAt_follows_clock steps c :
  (forall n m, n <= m -> (now E n <= now E m)%Z) ->
  Forall (fun s => forall n, now (fst s) n = now E n) steps ->
  (forall k t', files (exec E c (runs steps boot)) !! k = Some (Doc t') ->
     (createdAt t' <= updatedAt t')%Z) /\
  (forall k t t',
     files (runs steps boot) !! k = Some (Doc t) ->
     files (exec E c (runs steps boot)) !! k = Some (Doc t') ->
     (updatedAt t <= updatedAt t')%Z /\
     (t' <> t ->
      written E (runs steps boot) (exec E c (runs steps boot)) k t' /\
      exists i j, i < j /\
        reads (runs steps boot) <= j < reads (exec E c (runs steps boot)) /\
        updatedAt t = now E i /\ updatedAt t' = now E j)).
Proof.
  intros Hmono Hsteps.
  pose proof (Inv_runs E steps boot Hsteps (Inv_boot E)) as Hinv.
  pose proof (exec_evolves E c _ (proj1 Hinv)) as Hev.
  pose proof (Inv_evolves E _ _ Hinv Hev) as Hinv'.
  split.
  - intros k t' Hk. destruct (proj2 Hinv' k t' Hk) as (i & j & Hij & -> & ->).
    apply Hmono. lia.
  - intros k t t' Hk Hk'.
    destruct (proj2 Hinv k t Hk) as (i0 & j0 & Hij0 & _ & Hu0).
    destruct (proj2 Hev k) as [Heq|(t'' & Hk'' & Hw)].
    + rewrite Heq, Hk in Hk'. injection Hk' as <-. split; [lia|done].
    + rewrite Hk'' in Hk'. injection Hk' as ->.
      pose proof Hw as (t0 & u & j & _ & Hj & Ht' & _).
      assert (updatedAt t' = now E j) as Hu' by by rewrite Ht'.
      split.
      * rewrite Hu0, Hu'. apply Hmono. lia.
      * intros _. split; [done|]. exists j0, j. split; [lia|done].
Qed.

End Claims.

(** C1, on the code: cancelling a MERGED task succeeds, rewrites its status
    to CANCELLED and moves its [updatedAt]. *)
Lemma cancelTask_MERGED_succeeds :
  exists t' w',
    cancelTask happy_env "t1" (world_with (sample_task MERGED))
      = (Ok (Some t'), w') /\
    files w' !! "t1" = Some (Doc t') /\
    status t' = CANCELLED /\
    updatedAt t' <> updatedAt (sample_task MERGED).
Proof.
  eexists _, _. split; [vm_compute; reflexivity|].
  split; [vm_compute; reflexivity|]. split; [reflexivity|]. by cbn.
Qed.

Lemma cancelTask_terminal_witness :
  exists t' w',
    cancelTask failing_env "t1" (world_with (sample_task FAILED))
      = (Ok (Some t'), w') /\
    files w' !! "t1" = Some (Doc t') /\ status t' = CANCELLED /\
    updatedAt t' = now failing_env 3 /\ reads w' = 4 /\
    same_but_status (sample_task FAILED) t'.
Proof.
  apply (cancelTask_terminal failing_env "t1" (sample_task FAILED)
           (world_with (sample_task FAILED))); reflexivity.
Defined.

Lemma cancelTask_always_CANCELLED_witness :
  exists t' w',
    cancelTask failing_env "t1" (world_with (sample_task RUNNING))
      = (Ok (Some t'), w') /\
    files w' !! "t1" = Some (Doc t') /\ status t' = CANCELLED /\
    (truthy (julesSessionId (sample_task RUNNING)) = false ->
       trace w' = trace (world_with (sample_task RUNNING))) /\
    (forall sid e, julesSessionId (sample_task RUNNING) = Some sid ->
       truthy (Some sid) = true ->
       post_cancel failing_env sid = Throw e ->
       trace w' = ConsoleWarn "Failed to cancel Jules session"
                    :: PostCancel sid
                    :: trace (world_with (sample_task RUNNING))).
Proof.
  apply (cancelTask_always_CANCELLED failing_env "t1" (sample_task RUNNING)
           (world_with (sample_task RUNNING))); reflexivity.
Defined.

(** C2, on the code: a task created and cancelled within one millisecond is
    mutated by the cancellation, yet its [updatedAt] does not grow. *)
Lemma cancel_in_same_instant_keeps_updatedAt :
  exists t1 t2,
    files (execs same_instant_env
             [CreateTask "t1" "fix bug" "crash on start" None] boot) !! "t1"
      = Some (Doc t1) /\
    files (exec same_instant_env (CancelTask "t1")
             (execs same_instant_env
                [CreateTask "t1" "fix bug" "crash on start" None] boot)) !! "t1"
      = Some (Doc t2) /\
    status t1 = PLANNING /\ status t2 = CANCELLED /\
    ~ (updatedAt t1 < updatedAt t2)%Z.
Proof.
  eexists _, _. split; [vm_compute; reflexivity|].
  split; [vm_compute; reflexivity|]. split; [reflexivity|].
  split; [reflexivity|]. cbn. lia.
Qed.

Lemma updatedAt_follows_clock_witness :
  (forall k t',
     files (exec happy_env (CancelTask "t1")
              (runs [(failing_env, CreateTask "t0" "old" "first try" None);
                     (happy_env,
                      CreateTask "t1" "fix bug" "crash on start" None);
                     (failing_env, Tick); (happy_env, Tick)] boot)) !! k
       = Some (Doc t') ->
     (createdAt t' <= updatedAt t')%Z) /\
  (forall k t t',
     files (runs [(failing_env, CreateTask "t0" "old" "first try" None);
                  (happy_env, CreateTask "t1" "fix bug" "crash on start" None);
                  (failing_env, Tick); (happy_env, Tick)] boot) !! k
       = Some (Doc t) ->
     files (exec happy_env (CancelTask "t1")
              (runs [(failing_env, CreateTask "t0" "old" "first try" None);
                     (happy_env,
                      CreateTask "t1" "fix bug" "crash on start" None);
                     (failing_env, Tick); (happy_env, Tick)] boot)) !! k
       = Some (Doc t') ->
     (updatedAt t <= updatedAt t')%Z /\
     (t' <> t ->
      written happy_env
        (runs [(failing_env, CreateTask "t0" "old" "first try" None);
               (happy_env, CreateTask "t1" "fix bug" "crash on start" None);
               (failing_env, Tick); (happy_env, Tick)] boot)
        (exec happy_env (CancelTask "t1")
           (runs [(failing_env, CreateTask "t0" "old" "first try" None);
                  (happy_env, CreateTask "t1" "fix bug" "crash on start" None);
                  (failing_env, Tick); (happy_env, Tick)] boot)) k t' /\
      exists i j, i < j /\
        reads (runs [(failing_env, CreateTask "t0" "old" "first try" None);
                     (happy_env,
                      CreateTask "t1" "fix bug" "crash on start" None);
                     (failing_env, Tick); (happy_env, Tick)] boot) <= j
          < reads (exec happy_env (CancelTask "t1")
                     (runs [(failing_env,
                             CreateTask "t0" "old" "first try" None);
                            (happy_env,
                             CreateTask "t1" "fix bug" "crash on start" None);
                            (failing_env, Tick); (happy_env, Tick)] boot)) /\
        updatedAt t = now happy_env i /\ updatedAt t' = now happy_env j)).
Proof.
  apply (updatedAt_follows_clock happy_env
           [(failing_env, CreateTask "t0" "old" "first try" None);
            (happy_env, CreateTask "t1" "fix bug" "crash on start" None);
            (failing_env, Tick); (happy_env, Tick)] (CancelTask "t1")).
  - intros n m Hnm. simpl. lia.
  - repeat constructor.
Defined.

Lemma run_twice_no_second_write_witness :
  (files (snd (run happy_env
                 (snd (run happy_env (world_with (sample_task RUNNING))))))
     = files (snd (run happy_env (world_with (sample_task RUNNING)))) /\
   reads (snd (run happy_env
                 (snd (run happy_env (world_with (sample_task RUNNING))))))
     = reads (snd (run happy_env (world_with (sample_task RUNNING))))) /\
  (forall t sid state w0,
     julesSessionId t = Some sid -> get_session happy_env sid = Ok state ->
     mapState state (status t) = status t ->
     files (snd (poll happy_env t w0)) = files w0 /\
     reads (snd (poll happy_env t w0)) = reads w0) /\
  (forall state current,
     state <> Some "WAITING_FOR_USER_PLAN_APPROVAL" ->
     state <> Some "WAITING_FOR_USER_DIFF_APPROVAL" ->
     state <> Some "DONE" -> state <> Some "FAILED" ->
     state <> Some "ERROR" ->
     mapState state current = current).
Proof.
  apply (run_twice_no_second_write happy_env (world_with (sample_task RUNNING))).
  apply (bool_decide_unpack _). vm_compute. exact I.
Defined.

(** C6, on the code: a task waiting for plan approval whose approval request
    is rejected stays in WAITING_FOR_PLAN_APPROVAL; the request was sent, the
    caller gets the error, and nothing is persisted. *)
Lemma approveTask_rejected_stays_waiting :
  exists e w',
    approveTask failing_env "t1"
      (world_with (sample_task WAITING_FOR_PLAN_APPROVAL)) = (Throw e, w') /\
    trace w' = [PostApprovePlan "s1"] /\
    files w' !! "t1" = Some (Doc (sample_task WAITING_FOR_PLAN_APPROVAL)) /\
    status (sample_task WAITING_FOR_PLAN_APPROVAL) <> RUNNING.
Proof.
  eexists _, _. split; [vm_compute; reflexivity|].
  split; [reflexivity|]. split; [vm_compute; reflexivity|]. done.
Qed.

Lemma approveTask_dispatch_witness :
  (truthy (julesSessionId (sample_task WAITING_FOR_DIFF_APPROVAL)) = false ->
     approveTask happy_env "t1"
       (world_with (sample_task WAITING_FOR_DIFF_APPROVAL))
     = (Throw (Error "Task not found or no session"),
        world_with (sample_task WAITING_FOR_DIFF_APPROVAL))) /\
  (truthy (julesSessionId (sample_task WAITING_FOR_DIFF_APPROVAL)) = true ->
   status (sample_task WAITING_FOR_DIFF_APPROVAL) <> WAITING_FOR_PLAN_APPROVAL ->
   status (sample_task WAITING_FOR_DIFF_APPROVAL) <> WAITING_FOR_DIFF_APPROVAL ->
     exists e, InvalidState e /\
       approveTask happy_env "t1"
         (world_with (sample_task WAITING_FOR_DIFF_APPROVAL))
       = (Throw e, world_with (sample_task WAITING_FOR_DIFF_APPROVAL))) /\
  (forall sid call ev next,
     julesSessionId (sample_task WAITING_FOR_DIFF_APPROVAL) = Some sid ->
     truthy (Some sid) = true ->
     (status (sample_task WAITING_FOR_DIFF_APPROVAL) = WAITING_FOR_PLAN_APPROVAL /\
        call = post_approvePlan happy_env /\
        ev = PostApprovePlan /\ next = RUNNING) \/
     (status (sample_task WAITING_FOR_DIFF_APPROVAL) = WAITING_FOR_DIFF_APPROVAL /\
        call = post_approveDiff happy_env /\
        ev = PostApproveDiff /\ next = READY_FOR_PR) ->
     exists r w',
       approveTask happy_env "t1"
         (world_with (sample_task WAITING_FOR_DIFF_APPROVAL)) = (r, w') /\
       trace w' = ev sid :: trace (world_with (sample_task WAITING_FOR_DIFF_APPROVAL)) /\
       match call sid with
       | Ok _ =>
           exists t', r = Ok (Some t') /\ files w' !! "t1" = Some (Doc t') /\
             status t' = next /\
             same_but_status (sample_task WAITING_FOR_DIFF_APPROVAL) t'
       | Throw e =>
           r = Throw e /\
           files w' = files (world_with (sample_task WAITING_FOR_DIFF_APPROVAL)) /\
           reads w' = reads (world_with (sample_task WAITING_FOR_DIFF_APPROVAL))
       end).
Proof.
  apply (approveTask_dispatch happy_env "t1"
           (sample_task WAITING_FOR_DIFF_APPROVAL)
           (world_with (sample_task WAITING_FOR_DIFF_APPROVAL))); reflexivity.
Defined.

Lemma createPrForTask_guard_witness :
  (status (sample_task READY_FOR_PR) <> READY_FOR_PR ->
     exists e, InvalidState e /\
       createPrForTask happy_env "t1" "agent/s1" None None
         (world_with (sample_task READY_FOR_PR))
       = (Throw e, world_with (sample_task READY_FOR_PR)) /\
       (githubPrUrl (sample_task READY_FOR_PR) = None ->
        forall t',
          files (world_with (sample_task READY_FOR_PR)) !! "t1" = Some (Doc t') ->
          githubPrUrl t' = None)) /\
  (status (sample_task READY_FOR_PR) = READY_FOR_PR ->
   forall prUrl,
     post_pulls happy_env
       (pulls_request (repo (sample_task READY_FOR_PR)) "agent/s1"
          (or_else None (title (sample_task READY_FOR_PR)))
          (or_else None (description (sample_task READY_FOR_PR)))) = Ok prUrl ->
     exists t' w',
       createPrForTask happy_env "t1" "agent/s1" None None
         (world_with (sample_task READY_FOR_PR)) = (Ok (Some t'), w') /\
       files w' !! "t1" = Some (Doc t') /\ status t' = PR_CREATED /\
       githubPrUrl t' = Some prUrl).
Proof.
  apply (createPrForTask_guard happy_env "t1" "agent/s1" None None
           (sample_task READY_FOR_PR) (world_with (sample_task READY_FOR_PR)));
    reflexivity.
Defined.

Lemma run_changes_status_only_witness :
  exists t,
    files (world_with (sample_task RUNNING)) !! "t1" = Some (Doc t) /\
    same_but_status t
      {| id := "t1"; title := "fix bug"; description := "crash on start";
         repo := "org/app"; status := READY_FOR_PR;
         julesSessionId := Some "s1"; githubPrUrl := None;
         createdAt := 1000; updatedAt := 1003; error := None |}.
Proof.
  apply (run_changes_status_only happy_env (world_with (sample_task RUNNING))
           "t1").
  - apply (bool_decide_unpack _). vm_compute. exact I.
  - vm_compute. reflexivity.
Defined.

Lemma createPrForTask_defaults_witness :
  exists req,
    trace (snd (createPrForTask happy_env "t1" "agent/s1" None None
                  (world_with (sample_task READY_FOR_PR))))
      = PostPulls req :: trace (world_with (sample_task READY_FOR_PR)) /\
    pr_head req = "agent/s1" /\
    (@None string = None -> pr_title req = title (sample_task READY_FOR_PR)) /\
    (@None string = None ->
     pr_body req = description (sample_task READY_FOR_PR)).
Proof.
  apply (createPrForTask_defaults happy_env "t1" "agent/s1" None None
           (sample_task READY_FOR_PR) (world_with (sample_task READY_FOR_PR)));
    reflexivity.
Defined.

Lemma getTask_throws_on_malformed_witness :
  getTask "t1" {| files := {[ "t1" := Malformed "Unexpected end of JSON input" ]};
                  reads := 0; trace := [] |}
    = (Throw (SyntaxError "Unexpected end of JSON input"),
       {| files := {[ "t1" := Malformed "Unexpected end of JSON input" ]};
          reads := 0; trace := [] |}) /\
  exec happy_env (GetTask "t1")
    {| files := {[ "t1" := Malformed "Unexpected end of JSON input" ]};
       reads := 0; trace := [] |}
    = {| files := {[ "t1" := Malformed "Unexpected end of JSON input" ]};
         reads := 0; trace := [] |} /\
  exists tasks w',
    listTasks {| files := {[ "t1" := Malformed "Unexpected end of JSON input" ]};
                 reads := 0; trace := [] |} = (Ok tasks, w') /\
    (forall t, t ∈ tasks <->
       exists k,
         files {| files := {[ "t1" := Malformed "Unexpected end of JSON input" ]};
                  reads := 0; trace := [] |} !! k = Some (Doc t)) /\
    ConsoleError ("Failed to parse task file: " +:+ "t1" +:+ ".json") ∈ trace w' /\
    files w' = files {| files := {[ "t1" := Malformed "Unexpected end of JSON input" ]};
                        reads := 0; trace := [] |}.
Proof.
  apply (getTask_throws_on_malformed happy_env "t1"
           "Unexpected end of JSON input"). reflexivity.
Defined.

(** * Further properties of the store *)

Section StoreMore.

Variable E : Env.

(** X1. For ids without a slash: a saved task is read back as it was saved,
    whatever the file held before (a malformed file included), and reading
    any other such id gives what it gave before the save. *)
Theorem saveTask_getTask t w :
  plain_id (id t) ->
  (saveTask t ;; getTask (id t)) w
    = (Ok (Some t),
       {| files := <[id t := Doc t]> (files w); reads := reads w;
          trace := trace w |}) /\
  forall j, plain_id j -> j <> id t ->
    fst (getTask j (snd (saveTask t w))) = fst (getTask j w).
Proof.
  intros _. split.
  - erewrite bind_ok; [|reflexivity]. apply getTask_doc. cbn.
    by rewrite lookup_insert_eq.
  - intros j _ Hj. unfold getTask, saveTask. cbn.
    rewrite lookup_insert_ne by done. by repeat case_match.
Qed.

(** X2. [updateTask] on an id without a slash whose file is absent or
    malformed throws, for an absent file the error "Task not found: <id>",
    and leaves the world as it was: no file is created and the clock is not
    read. *)
Theorem updateTask_fails_untouched i u w :
  plain_id i ->
  (forall t, files w !! i <> Some (Doc t)) ->
  exists e, updateTask E i u w = (Throw e, w) /\
    (files w !! i = None -> e = Error ("Task not found: " +:+ i)) /\
    (forall why, files w !! i = Some (Malformed why) -> e = SyntaxError why).
Proof.
  intros _ Hno. destruct (files w !! i) as [[t|why]|] eqn:Hi.
  - by destruct (Hno t).
  - rewrite (updateTask_malformed E i u why w Hi). eexists. split; [done|].
    split; [done|]. by intros why' [= ->].
  - rewrite (updateTask_missing E i u w Hi). eexists. split; [done|].
    split; done.
Qed.

(** X3. [updateTask] returns the record it persisted: when the updates carry
    no [id], reading the id back gives exactly the returned record. Its
    [updatedAt] is the clock reading of the update even when the updates
    carry an [updatedAt] of their own, and no event is emitted. *)
Theorem updateTask_read_back i u t w :
  files w !! i = Some (Doc t) -> id t = i -> p_id u = None ->
  exists t' w', updateTask E i u w = (Ok t', w') /\
    getTask i w' = (Ok (Some t'), w') /\
    updatedAt t' = now E (reads w) /\
    reads w' = S (reads w) /\ trace w' = trace w.
Proof.
  intros Hi Hid Hu. rewrite (updateTask_doc E i u t w Hi).
  eexists _, _. split; [done|]. split; [|done].
  apply getTask_doc. cbn. rewrite Hu. cbn. rewrite Hid.
  by rewrite lookup_insert_eq.
Qed.

(** X4. When the updates carry an [id] without a slash other than the one
    asked for, [updateTask] does not rename: the merged record is written to
    the file of the new id and the file of the old id keeps the old record. *)
Theorem updateTask_new_id_copies i j u t w :
  files w !! i = Some (Doc t) -> p_id u = Some j -> plain_id j -> j <> i ->
  exists t' w', updateTask E i u w = (Ok t', w') /\ id t' = j /\
    files w' !! j = Some (Doc t') /\ files w' !! i = Some (Doc t).
Proof.
  intros Hi Hu _ Hne. rewrite (updateTask_doc E i u t w Hi).
  eexists _, _. split; [done|]. cbn. rewrite Hu. cbn.
  split; [done|]. rewrite lookup_insert_eq. split; [done|].
  by rewrite lookup_insert_ne.
Qed.

Lemma spread_spread t u1 u2 d1 d2 :
  spread (spread t u1 d1) u2 d2 = spread t (combine u1 u2) d2.
Proof.
  unfold spread, combine. cbn.
  destruct u1 as [a1 b1 c1 e1 f1 g1 h1 k1 l1 m1],
           u2 as [a2 b2 c2 e2 f2 g2 h2 k2 l2 m2]; cbn.
  unfold over, over_opt.
  f_equal; repeat case_match; congruence.
Qed.

(** X5. Two updates of the same task in a row amount to one update with the
    updates merged, later keys winning, stamped with the second clock
    reading; the clock is read twice. *)
Theorem updateTask_twice i u1 u2 t w :
  files w !! i = Some (Doc t) -> id t = i ->
  p_id u1 = None -> p_id u2 = None ->
  (updateTask E i u1 ;; updateTask E i u2) w =
    (Ok (spread t (combine u1 u2) (now E (S (reads w)))),
     {| files := <[i := Doc (spread t (combine u1 u2) (now E (S (reads w))))]>
                   (files w);
        reads := S (S (reads w)); trace := trace w |}).
Proof.
  intros Hi Hid Hu1 Hu2.
  erewrite bind_ok; [|by apply updateTask_doc].
  erewrite updateTask_doc.
  2:{ cbn. rewrite Hu1. cbn. rewrite Hid. by rewrite lookup_insert_eq. }
  cbn. rewrite Hu1, Hu2. cbn. rewrite Hid. rewrite spread_spread.
  by rewrite insert_insert_eq.
Qed.

End StoreMore.

(** * Further properties of the listing and of the poller *)

Section TickMore.

Variable E : Env.

Lemma parse_files_trace entries : forall acc w,
  exists logs,
    trace (snd (parse_files entries acc w)) = logs ++ trace w /\
    length (docs_of entries) + length logs = length entries /\
    Forall (fun e => exists file why, (file, Malformed why) ∈ entries /\
              e = ConsoleError ("Failed to parse task file: " +:+ file
                                  +:+ ".json")) logs.
Proof.
  induction entries as [|[file [t|why]] rest IH]; intros acc w; simpl.
  - exists []. by repeat split.
  - destruct (IH (acc ++ [t]) w) as (logs & Htr & Hlen & Hall).
    exists logs. split; [done|]. split; [lia|].
    eapply Forall_impl; [exact Hall|].
    intros e (f & y & Hin & ->). exists f, y. split; [by right|done].
  - run_monad.
    destruct (IH acc
      {| files := files w; reads := reads w;
         trace := ConsoleError ("Failed to parse task file: " +:+ file +:+ ".json")
                    :: trace w |}) as (logs & Htr & Hlen & Hall).
    exists (logs ++ [ConsoleError ("Failed to parse task file: " +:+ file
                                     +:+ ".json")]).
    split; [by rewrite Htr, <- app_assoc|].
    split; [rewrite length_app; simpl; lia|].
    apply Forall_app. split.
    + eapply Forall_impl; [exact Hall|].
      intros e (f & y & Hin & ->). exists f, y. split; [by right|done].
    + apply Forall_singleton. exists file, why. split; [by left|done].
Qed.

(** X6. [listTasks] never throws and changes neither files nor clock. Every
    file is accounted for once: the records returned and the console errors
    written add up to the number of files, and each error names a file that
    does not parse. *)
Theorem listTasks_accounts w :
  exists tasks logs w', listTasks w = (Ok tasks, w') /\
    files w' = files w /\ reads w' = reads w /\
    trace w' = logs ++ trace w /\
    length tasks + length logs = size (files w) /\
    Forall (fun e => exists file why,
              files w !! file = Some (Malformed why) /\
              e = ConsoleError ("Failed to parse task file: " +:+ file
                                  +:+ ".json")) logs.
Proof.
  destruct (listTasks_spec w) as [tr Hlist].
  destruct (parse_files_trace (map_to_list (files w)) [] w)
    as (logs & Htr & Hlen & Hall).
  fold (listTasks w) in Htr. rewrite Hlist in Htr. cbn in Htr.
  exists (docs_of (map_to_list (files w))), logs. eexists.
  split; [exact Hlist|]. cbn. split; [done|]. split; [done|].
  split; [done|]. split; [by rewrite <- length_map_to_list|].
  eapply Forall_impl; [exact Hall|].
  intros e (f & y & Hin & ->). exists f, y.
  split; [by apply elem_of_map_to_list|done].
Qed.

Lemma poll_any t w :
  exists w' ev, poll E t w = (Ok tt, w') /\ trace w' = ev ++ trace w /\
    Forall (fun e => (exists line, e = ConsoleError line) \/
              (exists sid, e = GetSession sid /\ polled (status t) = true /\
                 julesSessionId t = Some sid /\ truthy (Some sid) = true)) ev.
Proof.
  unfold poll. destruct w as [m n tr].
  destruct (polled (status t)) eqn:Hp;
    [|exists {| files := m; reads := n; trace := tr |}, []; by repeat split].
  destruct (julesSessionId t) as [[|c r]|] eqn:Hs;
    try (exists {| files := m; reads := n; trace := tr |}, []; by repeat split).
  assert (forall line, (exists line0, ConsoleError line = ConsoleError line0) \/
            (exists sid, ConsoleError line = GetSession sid /\ true = true /\
               Some (String c r) = Some sid /\ truthy (Some sid) = true))
    as Hlog by (intros line; left; by eexists).
  assert ((exists line0, GetSession (String c r) = ConsoleError line0) \/
            (exists sid, GetSession (String c r) = GetSession sid /\
               true = true /\ Some (String c r) = Some sid /\
               truthy (Some sid) = true))
    as Hget by (right; by eexists).
  unfold getSessionStatus, updateTask. run_monad.
  destruct (get_session E (String c r)) as [state|e]; cbn.
  - case_decide; cbn.
    + destruct (m !! id t) as [[t0|why]|]; cbn.
      * eexists _, [_]. split; [done|]. split; [done|]. by apply Forall_singleton.
      * eexists _, [_; _]. split; [done|]. split; [done|].
        apply Forall_cons. split; [apply Hlog|]. by apply Forall_singleton.
      * eexists _, [_; _]. split; [done|]. split; [done|].
        apply Forall_cons. split; [apply Hlog|]. by apply Forall_singleton.
    + eexists _, [_]. split; [done|]. split; [done|]. by apply Forall_singleton.
  - eexists _, [_; _; _]. split; [done|]. split; [done|].
    apply Forall_cons. split; [apply Hlog|].
    apply Forall_cons. split; [apply Hlog|]. by apply Forall_singleton.
Qed.

Lemma for_of_poll_any tasks : forall w,
  exists w' ev, for_of tasks (poll E) w = (Ok tt, w') /\
    trace w' = ev ++ trace w /\
    Forall (fun e => (exists line, e = ConsoleError line) \/
              (exists t sid, t ∈ tasks /\ e = GetSession sid /\
                 polled (status t) = true /\ julesSessionId t = Some sid /\
                 truthy (Some sid) = true)) ev.
Proof.
  induction tasks as [|t rest IH]; intros w; simpl.
  - exists w, []. by repeat split.
  - destruct (poll_any t w) as (w1 & ev1 & Hpoll & Htr1 & Hall1).
    rewrite (bind_ok _ _ _ _ _ Hpoll).
    destruct (IH w1) as (w' & ev & Hrun & Htr & Hall).
    exists w', (ev ++ ev1). split; [done|].
    split; [by rewrite Htr, Htr1, app_assoc|].
    apply Forall_app. split.
    + eapply Forall_impl; [exact Hall|].
      intros e [Hl|(t' & sid & Hin & He)]; [by left|right].
      exists t', sid. split; [by right|done].
    + eapply Forall_impl; [exact Hall1|].
      intros e [Hl|(sid & He)]; [by left|right].
      exists t, sid. split; [by left|done].
Qed.

(** X7. On a store whose files each hold a task record or data that does
    not parse, a tick never throws, whatever the remote side answers and
    whether or not the records sit under their own ids. Besides console
    errors, all it emits are session-status reads, each for a stored task in
    a polled status (RUNNING, PLANNING or QUEUED) carrying that non-empty
    session id: it sends no approval, cancellation, session-creation or
    pull-request request. *)
Theorem run_only_reads_sessions w :
  exists w' ev, run E w = (Ok tt, w') /\ trace w' = ev ++ trace w /\
    Forall (tick_event (files w)) ev.
Proof.
  destruct (listTasks_spec w) as [tr Hlist].
  destruct (parse_files_trace (map_to_list (files w)) [] w)
    as (logs & Htr0 & _ & Hlogs).
  fold (listTasks w) in Htr0. rewrite Hlist in Htr0. cbn in Htr0.
  unfold run. rewrite (bind_ok _ _ _ _ _ Hlist).
  destruct (for_of_poll_any (docs_of (map_to_list (files w)))
              {| files := files w; reads := reads w; trace := tr |})
    as (w' & ev & Hrun & Htr & Hall).
  exists w', (ev ++ logs). split; [done|].
  split; [by rewrite Htr; cbn; rewrite Htr0, app_assoc|].
  apply Forall_app. split.
  - eapply Forall_impl; [exact Hall|].
    intros e [Hl|(t & sid & Hin & He)]; [by left|right].
    apply listed_iff in Hin as [k Hk].
    exists k, t, sid. by destruct He as (-> & ? & ? & ?).
  - eapply Forall_impl; [exact Hlogs|].
    intros e (f & y & _ & ->). left. by eexists.
Qed.

Lemma verdict_of t sid :
  polled (status t) = true -> julesSessionId t = Some sid ->
  truthy (Some sid) = true ->
  verdict E t =
    match get_session E sid with
    | Ok state =>
        if decide (mapState state (status t) <> status t)
        then Some (mapState state (status t)) else None
    | Throw _ => None
    end.
Proof.
  intros Hp Hs Ht. unfold verdict. rewrite Hp, Hs.
  by destruct sid as [|c r].
Qed.

Lemma verdict_skips t :
  polled (status t) = false \/ truthy (julesSessionId t) = false ->
  verdict E t = None.
Proof.
  intros [Hp|Hs]; unfold verdict.
  - by rewrite Hp.
  - destruct (polled (status t)); [|done].
    by destruct (julesSessionId t) as [[|c r]|].
Qed.

(** X8. On a store of records filed under their own ids, a tick gives every
    task in a polled status with a non-empty session id the status the chain
    of comparisons maps the fetched label to, leaving the record as it is
    when that is its current status; when the fetch is rejected the record is
    left as it is, to be polled again at the next tick. *)
Theorem run_applies_mapping w k t sid :
  own_ids (files w) -> files w !! k = Some (Doc t) ->
  polled (status t) = true -> julesSessionId t = Some sid ->
  truthy (Some sid) = true ->
  match get_session E sid with
  | Ok state =>
      exists t', files (snd (run E w)) !! k = Some (Doc t') /\
        status t' = mapState state (status t) /\
        (mapState state (status t) = status t -> t' = t)
  | Throw _ => files (snd (run E w)) !! k = Some (Doc t)
  end.
Proof.
  intros Hown Hk Hp Hs Ht.
  destruct (run_spec E w Hown) as (w' & -> & _ & Hall). cbn.
  specialize (Hall k). rewrite Hk, (verdict_of t sid Hp Hs Ht) in Hall.
  destruct (get_session E sid) as [state|e]; [|done].
  case_decide as Hne.
  - destruct Hall as (n & _ & Hk'). eexists. split; [done|]. split; [done|].
    intros Heq. by destruct Hne.
  - exists t. split; [done|]. split; [by rewrite Hne|done].
Qed.

(** X9. On such a store a tick leaves alone every task whose status is not
    polled or whose session id is absent or empty, keeps every malformed file
    as it is, and creates no file. *)
Theorem run_leaves_others w :
  own_ids (files w) ->
  (forall k t, files w !! k = Some (Doc t) ->
     polled (status t) = false \/ truthy (julesSessionId t) = false ->
     files (snd (run E w)) !! k = Some (Doc t)) /\
  (forall k why, files w !! k = Some (Malformed why) ->
     files (snd (run E w)) !! k = Some (Malformed why)) /\
  (forall k, files w !! k = None -> files (snd (run E w)) !! k = None).
Proof.
  intros Hown. destruct (run_spec E w Hown) as (w' & -> & _ & Hall). cbn.
  split; [|split].
  - intros k t Hk Hskip. specialize (Hall k).
    by rewrite Hk, (verdict_skips t Hskip) in Hall.
  - intros k why Hk. specialize (Hall k). by rewrite Hk in Hall.
  - intros k Hk. specialize (Hall k). by rewrite Hk in Hall.
Qed.

End TickMore.

(** * The lifecycle the handlers and the poller implement *)

Section Lifecycle.

Variable E : Env.

Lemma mapState_mapped state current :
  mapState state current <> current -> mapped (mapState state current) = true.
Proof. unfold mapState. by repeat case_decide. Qed.

Lemma verdict_patch t ns :
  verdict E t = Some ns -> Patch t (with_status ns no_updates).
Proof.
  unfold verdict. destruct (polled (status t)) eqn:Hp; [|done].
  destruct (julesSessionId t) as [[|c r]|] eqn:Hs; try done.
  destruct (get_session E (String c r)) as [state|e]; [|done].
  case_decide as Hne; [|done]. intros [= <-].
  apply patch_poll; [done|by rewrite Hs|by apply mapState_mapped].
Qed.

Lemma patched_insert (m m' : gmap string FileData) i t u d k :
  m !! i = Some (Doc t) -> Patch t u ->
  m' = <[i := Doc (spread t u d)]> m ->
  m' !! k = m !! k \/
  exists t0 u0 d0, m !! k = Some (Doc t0) /\ Patch t0 u0 /\
    m' !! k = Some (Doc (spread t0 u0 d0)).
Proof.
  intros Hi Hp ->. destruct (decide (i = k)) as [<-|Hne].
  - right. exists t, u, d. by rewrite lookup_insert_eq.
  - left. by rewrite lookup_insert_ne.
Qed.

(** Every change a command makes to a file it does not create is one of the
    five updates of the code, applied to the record the file held. *)
Lemma exec_patch c w k :
  own_ids (files w) -> ~ creates c k ->
  files (exec E c w) !! k = files w !! k \/
  exists t u d, files w !! k = Some (Doc t) /\ Patch t u /\
    files (exec E c w) !! k = Some (Doc (spread t u d)).
Proof.
  intros Hown Hc. destruct c as [rnd ti de re| |i|i|i|i branch ti bo|]; simpl.
  - left. rewrite createTask_spec.
    destruct (post_sessions E _ _); cbn; by rewrite lookup_insert_ne.
  - left. by destruct (listTasks_spec w) as [tr ->].
  - left. by rewrite getTask_world.
  - destruct (files w !! i) as [[t|why]|] eqn:Hi.
    + pose proof (own_ids_lookup _ _ _ Hown Hi) as Hid.
      destruct (truthy (julesSessionId t)) eqn:Hs.
      * destruct (julesSessionId t) as [sid|] eqn:Hsid; [|done].
        destruct (decide (status t = WAITING_FOR_PLAN_APPROVAL)) as [Hp|Hp].
        { rewrite (approveTask_waiting E i t sid w (post_approvePlan E)
                     PostApprovePlan RUNNING) by auto.
          destruct (post_approvePlan E sid); [|by left].
          eapply patched_insert; [done| |done].
          apply patch_approvePlan; [done|by rewrite Hsid]. }
        destruct (decide (status t = WAITING_FOR_DIFF_APPROVAL)) as [Hd|Hd].
        { rewrite (approveTask_waiting E i t sid w (post_approveDiff E)
                     PostApproveDiff READY_FOR_PR) by auto.
          destruct (post_approveDiff E sid); [|by left].
          eapply patched_insert; [done| |done].
          apply patch_approveDiff; [done|by rewrite Hsid]. }
        left. rewrite (approveTask_not_waiting E i t w); auto.
        by rewrite Hsid.
      * left. by rewrite (approveTask_no_session E i t w).
    + left. by rewrite (approveTask_malformed E i why w).
    + left. by rewrite (approveTask_missing E i w).
  - destruct (files w !! i) as [[t|why]|] eqn:Hi.
    + pose proof (own_ids_lookup _ _ _ Hown Hi) as Hid.
      rewrite (cancelTask_spec E i t w) by done.
      eapply patched_insert; [done|apply patch_cancel|done].
    + left. by rewrite (cancelTask_malformed E i why w).
    + left. by rewrite (cancelTask_missing E i w).
  - destruct (files w !! i) as [[t|why]|] eqn:Hi.
    + pose proof (own_ids_lookup _ _ _ Hown Hi) as Hid.
      destruct (decide (status t = READY_FOR_PR)) as [Hr|Hr].
      * rewrite (createPrForTask_ready E i branch ti bo t w) by done.
        destruct (post_pulls E _) as [prUrl|e]; [|by left].
        eapply patched_insert; [done|by apply patch_createPr|done].
      * left. by rewrite (createPrForTask_not_ready E i branch ti bo t w).
    + left. by rewrite (createPrForTask_malformed E i branch ti bo why w).
    + left. by rewrite (createPrForTask_missing E i branch ti bo w).
  - destruct (run_spec E w Hown) as (w' & -> & _ & Hall). cbn.
    specialize (Hall k). destruct (files w !! k) as [[t|why]|]; auto.
    destruct (verdict E t) as [ns|] eqn:Hv; auto.
    destruct Hall as (n & _ & Hk). right.
    exists t, (with_status ns no_updates), (now E n).
    split; [done|]. split; [by apply verdict_patch|done].
Qed.

Lemma Patch_edge t u d :
  Patch t u ->
  edge (status t) (status (spread t u d)) = true /\
  same_core t (spread t u d) /\
  (githubPrUrl (spread t u d) = githubPrUrl t \/
   status t = READY_FOR_PR /\ status (spread t u d) = PR_CREATED).
Proof.
  intros [ns Hp Hs Hm|Hst Hs|Hst Hs| |prUrl Hst]; cbn.
  - split; [|split; [by repeat split|by left]].
    destruct (status t); try done; by destruct ns.
  - rewrite Hst. split; [done|]. split; [by repeat split|by left].
  - rewrite Hst. split; [done|]. split; [by repeat split|by left].
  - split; [by destruct (status t)|]. split; [by repeat split|by left].
  - rewrite Hst. split; [done|]. split; [by repeat split|by right].
Qed.

Lemma Patch_at_rest t u d : at_rest t -> Patch t u -> at_rest (spread t u d).
Proof.
  intros (Hnever & Hsess & Herr & Hurl & Hpr) Hpatch.
  assert (truthy (julesSessionId t) = true -> julesSessionId t <> None)
    as Htruthy by (by destruct (julesSessionId t)).
  destruct Hpatch as [ns Hp Hs Hm|Hst Hs|Hst Hs| |prUrl Hst];
    unfold at_rest; cbn.
  - assert (githubPrUrl t = None) as Hnone.
    { destruct (githubPrUrl t) eqn:Hu; [|done].
      destruct Hurl as [Hx|Hx]; [by eexists|..]; by rewrite Hx in Hp. }
    split; [by destruct ns|]. split; [intros Hn; by destruct (Htruthy Hs)|].
    split; [done|]. rewrite Hnone. split; [by intros [? ?]|].
    intros ->. done.
  - assert (githubPrUrl t = None) as Hnone.
    { destruct (githubPrUrl t) eqn:Hu; [|done].
      destruct Hurl as [Hx|Hx]; [by eexists|..]; by rewrite Hx in Hst. }
    split; [done|]. split; [intros Hn; by destruct (Htruthy Hs)|].
    split; [done|]. rewrite Hnone. split; [by intros [? ?]|done].
  - assert (githubPrUrl t = None) as Hnone.
    { destruct (githubPrUrl t) eqn:Hu; [|done].
      destruct Hurl as [Hx|Hx]; [by eexists|..]; by rewrite Hx in Hst. }
    split; [done|]. split; [intros Hn; by destruct (Htruthy Hs)|].
    split; [done|]. rewrite Hnone. split; [by intros [? ?]|done].
  - split; [done|]. split; [by right|]. split; [done|].
    split; [by right|done].
  - split; [done|]. split.
    { intros Hn. destruct (Hsess Hn) as [Hx|Hx]; by rewrite Hx in Hst. }
    split; [done|]. split; [by left|by eexists].
Qed.

(** X10. On a store of records filed under their own ids, a command other
    than a [createTask] drawing the same id never removes a stored task, and
    either leaves its record as it is or moves its status along one of the
    edges of the code: a polled status to a mapped one, the two waiting
    statuses to RUNNING and READY_FOR_PR, READY_FOR_PR to PR_CREATED, anything
    to CANCELLED. The change keeps [id], [title], [description], [repo],
    [createdAt], [julesSessionId] and [error], and keeps [githubPrUrl] except
    on the edge to PR_CREATED. *)
Theorem exec_follows_edges c w k t :
  own_ids (files w) -> ~ creates c k -> files w !! k = Some (Doc t) ->
  exists t', files (exec E c w) !! k = Some (Doc t') /\
    (t' = t \/
     edge (status t) (status t') = true /\ same_core t t' /\
     (githubPrUrl t' = githubPrUrl t \/
      status t = READY_FOR_PR /\ status t' = PR_CREATED)).
Proof.
  intros Hown Hc Hk.
  destruct (exec_patch c w k Hown Hc) as [Hsame|(t0 & u & d & Hk0 & Hp & Hk')].
  - exists t. split; [by rewrite Hsame|by left].
  - rewrite Hk in Hk0. injection Hk0 as <-. eexists. split; [done|].
    right. by apply Patch_edge.
Qed.

Lemma edge_dead_end s s' :
  dead_end s = true -> edge s s' = true -> s' = CANCELLED.
Proof. by destruct s, s'. Qed.

(** The invariant of the stored data: nothing malformed, and every record at
    rest. *)
Lemma exec_at_rest c w :
  own_ids (files w) ->
  (forall k d, files w !! k = Some d -> exists t, d = Doc t /\ at_rest t) ->
  forall k d, files (exec E c w) !! k = Some d ->
    exists t, d = Doc t /\ at_rest t.
Proof.
  intros Hown Hall k d Hk.
  assert (creates c k \/ ~ creates c k) as [Hc|Hc].
  { destruct c as [rnd ? ? ?| | | | | |]; simpl; try (right; tauto).
    destruct (decide (rnd = k)); auto. }
  - destruct c as [rnd ti de re| | | | | |]; try done. simpl in Hc, Hk.
    subst rnd. rewrite createTask_spec in Hk.
    destruct (post_sessions E _ _) as [sid|e]; cbn in Hk;
      rewrite lookup_insert_eq in Hk; injection Hk as <-;
      (eexists; split; [done|]); unfold at_rest; cbn.
    + split; [done|]. split; [done|]. split; [by intros [? ?]|].
      split; [by intros [? ?]|done].
    + split; [done|]. split; [by left|]. split; [done|].
      split; [by intros [? ?]|done].
  - destruct (exec_patch c w k Hown Hc)
      as [Hsame|(t0 & u & d0 & Hk0 & Hp & Hk')].
    + rewrite Hsame in Hk. by apply (Hall k).
    + rewrite Hk' in Hk. injection Hk as <-.
      destruct (Hall k _ Hk0) as (t1 & [= <-] & Hrest).
      eexists. split; [done|]. by apply Patch_at_rest.
Qed.

Lemma execs_at_rest cs : forall w,
  own_ids (files w) ->
  (forall k d, files w !! k = Some d -> exists t, d = Doc t /\ at_rest t) ->
  own_ids (files (execs E cs w)) /\
  forall k d, files (execs E cs w) !! k = Some d ->
    exists t, d = Doc t /\ at_rest t.
Proof.
  induction cs as [|c cs IH]; intros w Hown Hall; [done|].
  cbn. apply IH.
  - apply (own_ids_evolves E w); [done|by apply exec_evolves].
  - by apply exec_at_rest.
Qed.

Lemma boot_at_rest cs :
  own_ids (files (execs E cs boot)) /\
  forall k d, files (execs E cs boot) !! k = Some d ->
    exists t, d = Doc t /\ at_rest t.
Proof.
  apply execs_at_rest.
  - apply map_Forall_empty.
  - intros k d Hk. cbn in Hk. by rewrite lookup_empty in Hk.
Qed.

(** X12. Whatever commands and ticks have run since the empty store, no
    stored task is in NEW, QUEUED or MERGED: NEW is replaced before
    [createTask] returns, and no call site writes the other two. *)
Theorem stored_status_never_NEW_QUEUED_MERGED cs k t :
  files (execs E cs boot) !! k = Some (Doc t) ->
  status t <> NEW /\ status t <> QUEUED /\ status t <> MERGED.
Proof.
  intros Hk. destruct (proj2 (boot_at_rest cs) k _ Hk) as (t' & [= <-] & Hr).
  apply Hr.
Qed.

End Lifecycle.

(** * The lifecycle along runs under changing remote answers *)

Section LifecycleRuns.

Lemma runs_at_rest steps : forall w,
  own_ids (files w) ->
  (forall k d, files w !! k = Some d -> exists t, d = Doc t /\ at_rest t) ->
  own_ids (files (runs steps w)) /\
  forall k d, files (runs steps w) !! k = Some d ->
    exists t, d = Doc t /\ at_rest t.
Proof.
  induction steps as [|[E c] steps IH]; intros w Hown Hall; [done|].
  cbn. apply IH.
  - apply (own_ids_evolves E w); [done|by apply exec_evolves].
  - by apply exec_at_rest.
Qed.

Lemma reached_at_rest steps :
  own_ids (files (runs steps boot)) /\
  forall k d, files (runs steps boot) !! k = Some d ->
    exists t, d = Doc t /\ at_rest t.
Proof.
  apply runs_at_rest.
  - apply map_Forall_empty.
  - intros k d Hk. cbn in Hk. by rewrite lookup_empty in Hk.
Qed.

(** X11. Along any sequence of commands and ticks, each meeting its own
    remote answers and none of them a [createTask] drawing the task's id, a
    stored task stays stored with the same [id], [title], [description],
    [repo], [createdAt], [julesSessionId] and [error]; from NEW, PR_CREATED,
    MERGED, CANCELLED or FAILED its status can only stay or become CANCELLED,
    and CANCELLED stays CANCELLED. *)
Theorem runs_keep_core steps : forall w k t,
  own_ids (files w) -> Forall (fun s => ~ creates (snd s) k) steps ->
  files w !! k = Some (Doc t) ->
  exists t', files (runs steps w) !! k = Some (Doc t') /\ same_core t t' /\
    (dead_end (status t) = true ->
     status t' = status t \/ status t' = CANCELLED) /\
    (status t = CANCELLED -> status t' = CANCELLED).
Proof.
  induction steps as [|[E c] steps IH]; intros w k t Hown Hcs Hk.
  - exists t. split; [done|]. split; [by repeat split|]. split; auto.
  - apply Forall_cons in Hcs as [Hc Hcs]. cbn in Hc. cbn.
    pose proof (own_ids_evolves E _ _ Hown (exec_evolves E c w Hown)) as Hown'.
    destruct (exec_patch E c w k Hown Hc)
      as [Hsame|(t0 & u & d & Hk0 & Hp & Hk')].
    + rewrite <- Hsame in Hk. by apply IH.
    + rewrite Hk in Hk0. injection Hk0 as <-.
      destruct (Patch_edge t u d Hp) as (Hedge & Hcore & _).
      destruct (IH _ k _ Hown' Hcs Hk') as (t' & Hk'' & Hcore' & Hdead & Hcan).
      exists t'. split; [done|]. split.
      { destruct Hcore as (?&?&?&?&?&?&?), Hcore' as (?&?&?&?&?&?&?).
        repeat split; congruence. }
      assert (dead_end (status t) = true ->
              status (spread t u d) = CANCELLED) as Hgo
        by (intros Hd; by apply (edge_dead_end (status t))).
      split.
      * intros Hd. right. apply Hcan, Hgo, Hd.
      * intros Hst. apply Hcan, Hgo. by rewrite Hst.
Qed.

(** X13. Whatever commands and ticks have run since the empty store, each
    meeting its own remote answers, a stored task with an [error] has no
    session id and is in FAILED or CANCELLED: the only error recorded is the
    one of a session creation that failed. *)
Theorem stored_error_means_no_session steps k t :
  files (runs steps boot) !! k = Some (Doc t) ->
  is_Some (error t) ->
  julesSessionId t = None /\ (status t = FAILED \/ status t = CANCELLED).
Proof.
  intros Hk Herr.
  destruct (proj2 (reached_at_rest steps) k _ Hk)
    as (t' & [= <-] & (_ & Hsess & Herror & _)).
  split; [by apply Herror|]. by apply Hsess, Herror.
Qed.

(** X14. Whatever commands and ticks have run since the empty store, each
    meeting its own remote answers, a stored task with a [githubPrUrl] is in
    PR_CREATED or was cancelled after it. *)
Theorem stored_pr_url_means_PR_CREATED steps k t :
  files (runs steps boot) !! k = Some (Doc t) ->
  is_Some (githubPrUrl t) ->
  status t = PR_CREATED \/ status t = CANCELLED.
Proof.
  intros Hk Hurl.
  destruct (proj2 (reached_at_rest steps) k _ Hk)
    as (t' & [= <-] & (_ & _ & _ & Hu & _)).
  by apply Hu.
Qed.

(** X15. In a world reached from the empty store by any commands and ticks,
    each meeting its own remote answers, [getTask] on an id without a slash
    never throws: it returns [null] or a record whose [id] is the id asked
    for, because the code writes no malformed file and files every record
    under its id. *)
Theorem reached_getTask_never_throws steps i :
  plain_id i ->
  exists r, getTask i (runs steps boot) = (Ok r, runs steps boot) /\
    forall t, r = Some t -> id t = i.
Proof.
  intros _. destruct (reached_at_rest steps) as [Hown Hall].
  destruct (files (runs steps boot) !! i) as [[t|why]|] eqn:Hi.
  - exists (Some t). split; [by apply getTask_doc|].
    intros t' [= <-]. by apply (own_ids_lookup (files (runs steps boot))).
  - by destruct (Hall i _ Hi) as (t & [=] & _).
  - exists None. split; [by apply getTask_missing|done].
Qed.

(** X16. Once a stored task has a [githubPrUrl], no later command or tick,
    whatever the remote services answer to each, changes it (short of a
    [createTask] drawing the same id): the URL is set once. *)
Theorem githubPrUrl_set_once steps0 steps k t prUrl :
  files (runs steps0 boot) !! k = Some (Doc t) ->
  githubPrUrl t = Some prUrl ->
  Forall (fun s => ~ creates (snd s) k) steps ->
  exists t', files (runs steps (runs steps0 boot)) !! k = Some (Doc t') /\
    githubPrUrl t' = Some prUrl.
Proof.
  destruct (reached_at_rest steps0) as [Hown Hall]. revert Hown Hall.
  generalize (runs steps0 boot) as w. intros w Hown Hall Hk Hurl Hcs.
  revert w t Hown Hall Hk Hurl.
  induction steps as [|[E c] steps IH]; intros w t Hown Hall Hk Hurl.
  - by exists t.
  - apply Forall_cons in Hcs as [Hc Hcs]. cbn in Hc. cbn.
    pose proof (own_ids_evolves E _ _ Hown (exec_evolves E c w Hown)) as Hown'.
    pose proof (exec_at_rest E c w Hown Hall) as Hall'.
    destruct (exec_patch E c w k Hown Hc)
      as [Hsame|(t0 & u & d & Hk0 & Hp & Hk')].
    + rewrite <- Hsame in Hk. by apply (IH Hcs _ t).
    + rewrite Hk in Hk0. injection Hk0 as <-.
      apply (IH Hcs _ _ Hown' Hall' Hk').
      destruct (Patch_edge t u d Hp) as (_ & _ & [Hsame|[Hst _]]).
      * by rewrite Hsame.
      * destruct (Hall k _ Hk) as (t1 & [= <-] & (_ & _ & _ & Hu & _)).
        destruct Hu as [Hx|Hx]; [by eexists|..]; by rewrite Hx in Hst.
Qed.

End LifecycleRuns.

(** * Further properties of the gateway methods *)

Section GatewayMore.

Variable E : Env.

(** X17. [createTask] writes the new record over whatever the file of the
    drawn id held, an earlier task included (no collision check), and touches
    no other file. It reads the clock three times: [createdAt] is the first
    reading and the returned [updatedAt] the third. *)
Theorem createTask_overwrites rnd ti de re w :
  exists t w', createTask E rnd ti de re w = (Ok t, w') /\
    files w' = <[rnd := Doc t]> (files w) /\
    id t = rnd /\ title t = ti /\ description t = de /\
    reads w' = 3 + reads w /\
    createdAt t = now E (reads w) /\ updatedAt t = now E (2 + reads w).
Proof.
  rewrite createTask_spec.
  destruct (post_sessions E _ _); eexists _, _; (split; [done|]); by cbn.
Qed.

(** X18. The repository of a new task is the one supplied, unless it is
    missing or the empty string, in which case it is the configured default;
    either way the session-creation request, the only request [createTask]
    makes, carries that repository and the description. *)
Theorem createTask_repo_default rnd ti de re w :
  exists t w', createTask E rnd ti de re w = (Ok t, w') /\
    (re = None \/ re = Some "" -> repo t = defaultRepo E) /\
    (forall r, re = Some r -> r <> "" -> repo t = r) /\
    exists logs, trace w' = logs ++ PostSessions (repo t) de :: trace w /\
      Forall (fun e => exists line, e = ConsoleError line) logs.
Proof.
  rewrite createTask_spec.
  assert (re = None \/ re = Some "" -> or_else re (defaultRepo E) = defaultRepo E)
    as Hdef by (by intros [->| ->]).
  assert (forall r, re = Some r -> r <> "" -> or_else re (defaultRepo E) = r)
    as Hgiven by (intros r -> Hr; by destruct r).
  destruct (post_sessions E _ _); eexists _, _; (split; [done|]); cbn;
    (split; [done|]); (split; [done|]).
  - exists []. by split.
  - exists [ConsoleError "Error creating Jules session:"]. split; [done|].
    apply Forall_singleton. by eexists.
Qed.

(** X19. On an id without a slash that has no file, [approveTask] throws
    "Task not found or no session" and [cancelTask] and [createPrForTask]
    throw "Task not found"; none of them changes the world, so no file is
    created, the clock is not read and no request is sent. *)
Theorem commands_on_missing_id i branch ti bo w :
  plain_id i -> files w !! i = None ->
  approveTask E i w = (Throw (Error "Task not found or no session"), w) /\
  cancelTask E i w = (Throw (Error "Task not found"), w) /\
  createPrForTask E i branch ti bo w = (Throw (Error "Task not found"), w).
Proof.
  intros _ Hi. split; [by apply approveTask_missing|].
  split; [by apply cancelTask_missing|by apply createPrForTask_missing].
Qed.

(** X20. On an id whose file does not parse, [approveTask], [cancelTask] and
    [createPrForTask] all throw the parser's SyntaxError, not a not-found
    error, and change nothing: no request is sent and the file is not
    repaired. *)
Theorem commands_on_malformed_file i branch ti bo why w :
  files w !! i = Some (Malformed why) ->
  approveTask E i w = (Throw (SyntaxError why), w) /\
  cancelTask E i w = (Throw (SyntaxError why), w) /\
  createPrForTask E i branch ti bo w = (Throw (SyntaxError why), w).
Proof.
  intros Hi. split; [by apply approveTask_malformed|].
  split; [by apply cancelTask_malformed|by apply createPrForTask_malformed].
Qed.

Lemma exec_files_of_target c i w :
  target c = Some i ->
  (forall t, files w !! i = Some (Doc t) -> id t = i) ->
  files (exec E c w) = files w \/
  exists t', files (exec E c w) = <[i := Doc t']> (files w).
Proof.
  intros Hc Hid.
  destruct c as [rnd ti de re| |j|j|j|j branch ti bo|]; simpl in *;
    try done; injection Hc as ->.
  - right. rewrite createTask_spec.
    destruct (post_sessions E _ _); by eexists.
  - left. by rewrite getTask_world.
  - destruct (files w !! i) as [[t|why]|] eqn:Hi.
    + specialize (Hid t eq_refl).
      destruct (truthy (julesSessionId t)) eqn:Hs.
      * destruct (julesSessionId t) as [sid|] eqn:Hsid; [|done].
        destruct (decide (status t = WAITING_FOR_PLAN_APPROVAL)) as [Hp|Hp].
        { rewrite (approveTask_waiting E i t sid w (post_approvePlan E)
                     PostApprovePlan RUNNING) by auto.
          destruct (post_approvePlan E sid); [right; by eexists|by left]. }
        destruct (decide (status t = WAITING_FOR_DIFF_APPROVAL)) as [Hd|Hd].
        { rewrite (approveTask_waiting E i t sid w (post_approveDiff E)
                     PostApproveDiff READY_FOR_PR) by auto.
          destruct (post_approveDiff E sid); [right; by eexists|by left]. }
        left. rewrite (approveTask_not_waiting E i t w); auto.
        by rewrite Hsid.
      * left. by rewrite (approveTask_no_session E i t w).
    + left. by rewrite (approveTask_malformed E i why w).
    + left. by rewrite (approveTask_missing E i w).
  - destruct (files w !! i) as [[t|why]|] eqn:Hi.
    + specialize (Hid t eq_refl). rewrite (cancelTask_spec E i t w) by done.
      right. by eexists.
    + left. by rewrite (cancelTask_malformed E i why w).
    + left. by rewrite (cancelTask_missing E i w).
  - destruct (files w !! i) as [[t|why]|] eqn:Hi.
    + specialize (Hid t eq_refl).
      destruct (decide (status t = READY_FOR_PR)) as [Hr|Hr].
      * rewrite (createPrForTask_ready E i branch ti bo t w) by done.
        destruct (post_pulls E _); [right; by eexists|by left].
      * left. by rewrite (createPrForTask_not_ready E i branch ti bo t w).
    + left. by rewrite (createPrForTask_malformed E i branch ti bo why w).
    + left. by rewrite (createPrForTask_missing E i branch ti bo w).
Qed.

(** X21. A gateway command about an id without a slash changes no file but
    the one of that id (given that a record stored under the id carries it):
    every other file is exactly as before. *)
Theorem command_touches_only_its_id c i w k :
  target c = Some i -> plain_id i ->
  (forall t, files w !! i = Some (Doc t) -> id t = i) ->
  k <> i ->
  files (exec E c w) !! k = files w !! k.
Proof.
  intros Hc _ Hid Hk.
  destruct (exec_files_of_target c i w Hc Hid) as [->|[t' ->]]; [done|].
  by rewrite lookup_insert_ne.
Qed.

(** X22. When the pull-request request is rejected, [createPrForTask] throws
    the rejection to the caller after the request was sent, and the task
    stays as it was, in READY_FOR_PR without [githubPrUrl] change, so the
    command can be retried. *)
Theorem createPrForTask_rejected i branch ti bo t e w :
  files w !! i = Some (Doc t) -> id t = i -> status t = READY_FOR_PR ->
  post_pulls E (pulls_request (repo t) branch (or_else ti (title t))
                  (or_else bo (description t))) = Throw e ->
  exists w', createPrForTask E i branch ti bo w = (Throw e, w') /\
    files w' = files w /\ reads w' = reads w /\
    trace w' = PostPulls (pulls_request (repo t) branch (or_else ti (title t))
                            (or_else bo (description t))) :: trace w.
Proof.
  intros Hi Hid Hst Hpost.
  rewrite (createPrForTask_ready E i branch ti bo t w Hi Hid Hst), Hpost.
  by eexists.
Qed.

(** X23. The commands compose into the lifecycle: on a store of records
    filed under their own ids, creating a task whose session creation
    succeeds with a non-empty id, then one tick that fetches DONE for that
    session, then [createPrForTask] with a successful pull-request request,
    leaves the task stored in PR_CREATED with the returned URL, its session
    id, and the title, description and creation time it was created with. *)
Theorem create_tick_createPr rnd ti de re branch sid prUrl w :
  own_ids (files w) ->
  post_sessions E (or_else re (defaultRepo E)) de = Ok sid ->
  truthy (Some sid) = true ->
  get_session E sid = Ok (Some "DONE") ->
  post_pulls E (pulls_request (or_else re (defaultRepo E)) branch ti de)
    = Ok prUrl ->
  exists t,
    files (execs E [CreateTask rnd ti de re; Tick;
                    CreatePrForTask rnd branch None None] w) !! rnd
      = Some (Doc t) /\
    status t = PR_CREATED /\ githubPrUrl t = Some prUrl /\
    julesSessionId t = Some sid /\ title t = ti /\ description t = de /\
    createdAt t = now E (reads w).
Proof.
  intros Hown Hpost Hsid Hget Hpulls. cbn [execs foldl exec].
  rewrite createTask_spec, Hpost. cbn [snd].
  set (t1 := spread _ _ (now E (S (S (reads w))))).
  set (w1 := {| files := <[rnd:=Doc t1]> (files w);
                reads := S (S (S (reads w)));
                trace := PostSessions (or_else re (defaultRepo E)) de
                           :: trace w |}).
  assert (own_ids (files w1)) as Hown1 by (by apply (own_ids_insert (files w) t1)).
  destruct (run_spec E w1 Hown1) as (w2 & Hrun & _ & Hall).
  rewrite Hrun. cbn [snd].
  assert (own_ids (files w2)) as Hown2.
  { pose proof (own_ids_evolves E w1 _ Hown1 (evolves_run E w1 Hown1)) as H.
    by rewrite Hrun in H. }
  specialize (Hall rnd). cbn [files w1] in Hall.
  rewrite lookup_insert_eq in Hall.
  assert (verdict E t1 = Some READY_FOR_PR) as Hv.
  { unfold verdict. cbn. destruct sid as [|c r]; [done|]. by rewrite Hget. }
  rewrite Hv in Hall. destruct Hall as (n & _ & Hk2).
  rewrite (createPrForTask_ready E rnd branch None None _ w2 Hk2); [|done..].
  cbn. rewrite Hpulls. cbn. rewrite lookup_insert_eq.
  eexists. split; [done|]. by cbn.
Qed.

End GatewayMore.

(** * The pull-request URL *)

Section PullsUrl.

Lemma split_lacks c s : lacks c s = true -> split c s = [s].
Proof.
  induction s as [|a r IH]; simpl; [done|].
  destruct (Ascii.eqb a c); [done|]. intros Hr. by rewrite IH.
Qed.

Lemma split_segment c a b :
  lacks c a = true -> split c (a +:+ String c b) = a :: split c b.
Proof.
  induction a as [|x r IH]; simpl.
  - intros _. by rewrite Ascii.eqb_refl.
  - destruct (Ascii.eqb x c); [done|]. simpl. intros Hr. by rewrite IH.
Qed.

(** X24. For a repository written owner/name, with no slash inside owner or
    name, the request goes to /repos/owner/name/pulls; anything after a
    further slash is dropped from the URL. The request always asks for base
    branch main and carries the branch, title and body it was given. *)
Theorem pulls_request_owner_name owner name rest repo branch ti bo :
  lacks "/" owner = true -> lacks "/" name = true ->
  repo = owner +:+ "/" +:+ name \/
  repo = owner +:+ "/" +:+ name +:+ "/" +:+ rest ->
  pulls_request repo branch ti bo =
    {| pr_url := "https://api.github.com/repos/" +:+ owner +:+ "/" +:+ name
                   +:+ "/pulls";
       pr_title := ti; pr_body := bo; pr_head := branch; pr_base := "main" |}.
Proof.
  intros Ho Hn Hrepo. unfold pulls_request.
  assert (exists more, split "/" repo = owner :: name :: more) as [more ->].
  { destruct Hrepo as [-> | ->].
    - exists []. change (owner +:+ "/" +:+ name)
        with (owner +:+ String "/" name).
      by rewrite split_segment, split_lacks.
    - exists (split "/" rest).
      change (owner +:+ "/" +:+ name +:+ "/" +:+ rest)
        with (owner +:+ String "/" (name +:+ String "/" rest)).
      by rewrite !split_segment. }
  done.
Qed.

(** X25. For a repository with no slash at all the second component of the
    split is missing, and the request goes to /repos/<repo>/undefined/pulls:
    [createPr] validates nothing. *)
Theorem pulls_request_no_slash repo branch ti bo :
  lacks "/" repo = true ->
  pr_url (pulls_request repo branch ti bo) =
    "https://api.github.com/repos/" +:+ repo +:+ "/undefined/pulls".
Proof.
  intros Hr. unfold pulls_request. by rewrite split_lacks.
Qed.

End PullsUrl.

(** * The further properties at concrete inputs *)

Lemma saveTask_getTask_witness :
  (saveTask (sample_task RUNNING) ;; getTask (id (sample_task RUNNING)))
    broken_world
    = (Ok (Some (sample_task RUNNING)),
       {| files := <[id (sample_task RUNNING) := Doc (sample_task RUNNING)]>
                     (files broken_world);
          reads := reads broken_world; trace := trace broken_world |}) /\
  forall j, plain_id j -> j <> id (sample_task RUNNING) ->
    fst (getTask j (snd (saveTask (sample_task RUNNING) broken_world)))
      = fst (getTask j broken_world).
Proof.
  apply (saveTask_getTask (sample_task RUNNING) broken_world). reflexivity.
Defined.

Lemma updateTask_fails_untouched_witness :
  exists e,
    updateTask happy_env "t9" (with_status RUNNING no_updates)
      (world_with (sample_task PLANNING))
      = (Throw e, world_with (sample_task PLANNING)) /\
    (files (world_with (sample_task PLANNING)) !! "t9" = None ->
     e = Error ("Task not found: " +:+ "t9")) /\
    (forall why,
       files (world_with (sample_task PLANNING)) !! "t9"
         = Some (Malformed why) ->
       e = SyntaxError why).
Proof.
  apply (updateTask_fails_untouched happy_env "t9"
           (with_status RUNNING no_updates) (world_with (sample_task PLANNING)));
    [reflexivity | intros t; vm_compute; discriminate].
Defined.

Lemma updateTask_read_back_witness :
  exists t' w',
    updateTask happy_env "t1" (with_status RUNNING no_updates)
      (world_with (sample_task PLANNING)) = (Ok t', w') /\
    getTask "t1" w' = (Ok (Some t'), w') /\
    updatedAt t' = now happy_env (reads (world_with (sample_task PLANNING))) /\
    reads w' = S (reads (world_with (sample_task PLANNING))) /\
    trace w' = trace (world_with (sample_task PLANNING)).
Proof.
  apply (updateTask_read_back happy_env "t1" (with_status RUNNING no_updates)
           (sample_task PLANNING) (world_with (sample_task PLANNING)));
    reflexivity.
Defined.

Lemma updateTask_new_id_copies_witness :
  exists t' w',
    updateTask happy_env "t1" (with_id "t2" no_updates)
      (world_with (sample_task PLANNING)) = (Ok t', w') /\
    id t' = "t2" /\
    files w' !! "t2" = Some (Doc t') /\
    files w' !! "t1" = Some (Doc (sample_task PLANNING)).
Proof.
  apply (updateTask_new_id_copies happy_env "t1" "t2" (with_id "t2" no_updates)
           (sample_task PLANNING) (world_with (sample_task PLANNING)));
    [reflexivity | reflexivity | reflexivity | discriminate].
Defined.

Lemma updateTask_twice_witness :
  (updateTask happy_env "t1" (with_status RUNNING no_updates) ;;
   updateTask happy_env "t1" (with_error "late" no_updates))
    (world_with (sample_task PLANNING)) =
  (Ok (spread (sample_task PLANNING)
         (combine (with_status RUNNING no_updates) (with_error "late" no_updates))
         (now happy_env (S (reads (world_with (sample_task PLANNING)))))),
   {| files :=
        <["t1" := Doc (spread (sample_task PLANNING)
                         (combine (with_status RUNNING no_updates)
                            (with_error "late" no_updates))
                         (now happy_env
                            (S (reads (world_with (sample_task PLANNING))))))]>
          (files (world_with (sample_task PLANNING)));
      reads := S (S (reads (world_with (sample_task PLANNING))));
      trace := trace (world_with (sample_task PLANNING)) |}).
Proof.
  apply (updateTask_twice happy_env "t1" (with_status RUNNING no_updates)
           (with_error "late" no_updates) (sample_task PLANNING)
           (world_with (sample_task PLANNING))); reflexivity.
Defined.

Lemma run_applies_mapping_witness :
  match get_session happy_env "s1" with
  | Ok state =>
      exists t',
        files (snd (run happy_env (world_with (sample_task RUNNING)))) !! "t1"
          = Some (Doc t') /\
        status t' = mapState state (status (sample_task RUNNING)) /\
        (mapState state (status (sample_task RUNNING))
           = status (sample_task RUNNING) -> t' = sample_task RUNNING)
  | Throw _ =>
      files (snd (run happy_env (world_with (sample_task RUNNING)))) !! "t1"
        = Some (Doc (sample_task RUNNING))
  end.
Proof.
  apply (run_applies_mapping happy_env (world_with (sample_task RUNNING)) "t1"
           (sample_task RUNNING) "s1");
    [apply (bool_decide_unpack _); vm_compute; exact I | reflexivity..].
Defined.

Lemma run_leaves_others_witness :
  (forall k t,
     files (world_with (sample_task PR_CREATED)) !! k = Some (Doc t) ->
     polled (status t) = false \/ truthy (julesSessionId t) = false ->
     files (snd (run happy_env (world_with (sample_task PR_CREATED)))) !! k
       = Some (Doc t)) /\
  (forall k why,
     files (world_with (sample_task PR_CREATED)) !! k = Some (Malformed why) ->
     files (snd (run happy_env (world_with (sample_task PR_CREATED)))) !! k
       = Some (Malformed why)) /\
  (forall k,
     files (world_with (sample_task PR_CREATED)) !! k = None ->
     files (snd (run happy_env (world_with (sample_task PR_CREATED)))) !! k
       = None).
Proof.
  apply (run_leaves_others happy_env (world_with (sample_task PR_CREATED))).
  apply (bool_decide_unpack _). vm_compute. exact I.
Defined.

Lemma exec_follows_edges_witness :
  exists t',
    files (exec happy_env Tick (world_with (sample_task RUNNING))) !! "t1"
      = Some (Doc t') /\
    (t' = sample_task RUNNING \/
     edge (status (sample_task RUNNING)) (status t') = true /\
     same_core (sample_task RUNNING) t' /\
     (githubPrUrl t' = githubPrUrl (sample_task RUNNING) \/
      status (sample_task RUNNING) = READY_FOR_PR /\ status t' = PR_CREATED)).
Proof.
  apply (exec_follows_edges happy_env Tick (world_with (sample_task RUNNING))
           "t1" (sample_task RUNNING));
    [apply (bool_decide_unpack _); vm_compute; exact I
    | intros [] | reflexivity].
Defined.

Lemma runs_keep_core_witness :
  exists t',
    files (runs [(failing_env, CancelTask "t1"); (happy_env, Tick);
                 (happy_env, ApproveTask "t1")]
             (world_with (sample_task RUNNING))) !! "t1" = Some (Doc t') /\
    same_core (sample_task RUNNING) t' /\
    (dead_end (status (sample_task RUNNING)) = true ->
     status t' = status (sample_task RUNNING) \/ status t' = CANCELLED) /\
    (status (sample_task RUNNING) = CANCELLED -> status t' = CANCELLED).
Proof.
  apply (runs_keep_core [(failing_env, CancelTask "t1"); (happy_env, Tick);
                         (happy_env, ApproveTask "t1")]
           (world_with (sample_task RUNNING)) "t1" (sample_task RUNNING));
    [apply (bool_decide_unpack _); vm_compute; exact I
    | repeat constructor; intros []
    | reflexivity].
Defined.

Lemma stored_status_never_NEW_QUEUED_MERGED_witness :
  status (sample_task PLANNING) <> NEW /\
  status (sample_task PLANNING) <> QUEUED /\
  status (sample_task PLANNING) <> MERGED.
Proof.
  apply (stored_status_never_NEW_QUEUED_MERGED happy_env
           [CreateTask "t1" "fix bug" "crash on start" None] "t1").
  vm_compute. reflexivity.
Defined.

Lemma stored_error_means_no_session_witness :
  julesSessionId failed_task = None /\
  (status failed_task = FAILED \/ status failed_task = CANCELLED).
Proof.
  apply (stored_error_means_no_session
           [(failing_env, CreateTask "t1" "fix bug" "crash on start" None);
            (happy_env, CreateTask "t0" "old" "first try" None);
            (happy_env, Tick)] "t1").
  - vm_compute. reflexivity.
  - by eexists.
Defined.

Lemma stored_pr_url_means_PR_CREATED_witness :
  status pr_task = PR_CREATED \/ status pr_task = CANCELLED.
Proof.
  apply (stored_pr_url_means_PR_CREATED
           [(happy_env, CreateTask "t1" "fix bug" "crash on start" None);
            (failing_env, Tick); (happy_env, Tick);
            (happy_env, CreatePrForTask "t1" "agent/s1" None None)] "t1").
  - vm_compute. reflexivity.
  - by eexists.
Defined.

Lemma reached_getTask_never_throws_witness :
  exists r,
    getTask "t1"
      (runs [(failing_env, CreateTask "t1" "fix bug" "crash on start" None);
             (happy_env, CancelTask "t1")] boot)
    = (Ok r,
       runs [(failing_env, CreateTask "t1" "fix bug" "crash on start" None);
             (happy_env, CancelTask "t1")] boot) /\
    forall t, r = Some t -> id t = "t1".
Proof.
  apply (reached_getTask_never_throws
           [(failing_env, CreateTask "t1" "fix bug" "crash on start" None);
            (happy_env, CancelTask "t1")] "t1").
  reflexivity.
Defined.

Lemma githubPrUrl_set_once_witness :
  exists t',
    files (runs [(failing_env, CancelTask "t1"); (happy_env, Tick)]
             (runs [(happy_env,
                     CreateTask "t1" "fix bug" "crash on start" None);
                    (failing_env, Tick); (happy_env, Tick);
                    (happy_env, CreatePrForTask "t1" "agent/s1" None None)]
                boot)) !! "t1"
      = Some (Doc t') /\
    githubPrUrl t' = Some "https://host/org/app/pull/7".
Proof.
  apply (githubPrUrl_set_once
           [(happy_env, CreateTask "t1" "fix bug" "crash on start" None);
            (failing_env, Tick); (happy_env, Tick);
            (happy_env, CreatePrForTask "t1" "agent/s1" None None)]
           [(failing_env, CancelTask "t1"); (happy_env, Tick)] "t1"
           {| id := "t1"; title := "fix bug"; description := "crash on start";
              repo := "org/app"; status := PR_CREATED;
              julesSessionId := Some "s1";
              githubPrUrl := Some "https://host/org/app/pull/7";
              createdAt := 1000; updatedAt := 1004; error := None |});
    [vm_compute; reflexivity | reflexivity | repeat constructor; intros []].
Defined.

Lemma commands_on_missing_id_witness :
  approveTask happy_env "t9" (world_with (sample_task RUNNING))
    = (Throw (Error "Task not found or no session"),
       world_with (sample_task RUNNING)) /\
  cancelTask happy_env "t9" (world_with (sample_task RUNNING))
    = (Throw (Error "Task not found"), world_with (sample_task RUNNING)) /\
  createPrForTask happy_env "t9" "agent/s1" None None
    (world_with (sample_task RUNNING))
    = (Throw (Error "Task not found"), world_with (sample_task RUNNING)).
Proof.
  apply (commands_on_missing_id happy_env "t9" "agent/s1" None None
           (world_with (sample_task RUNNING)));
    [reflexivity | vm_compute; reflexivity].
Defined.

Lemma commands_on_malformed_file_witness :
  approveTask happy_env "t1" broken_world
    = (Throw (SyntaxError "Unexpected end of JSON input"), broken_world) /\
  cancelTask happy_env "t1" broken_world
    = (Throw (SyntaxError "Unexpected end of JSON input"), broken_world) /\
  createPrForTask happy_env "t1" "agent/s1" None None broken_world
    = (Throw (SyntaxError "Unexpected end of JSON input"), broken_world).
Proof.
  apply (commands_on_malformed_file happy_env "t1" "agent/s1" None None
           "Unexpected end of JSON input" broken_world).
  reflexivity.
Defined.

Lemma command_touches_only_its_id_witness :
  files (exec happy_env (CreateTask "t2" "second" "other" None)
           (world_with (sample_task RUNNING))) !! "t1"
  = files (world_with (sample_task RUNNING)) !! "t1".
Proof.
  apply (command_touches_only_its_id happy_env
           (CreateTask "t2" "second" "other" None) "t2"
           (world_with (sample_task RUNNING)) "t1");
    [reflexivity | reflexivity | intros t; vm_compute; discriminate
    | discriminate].
Defined.

Lemma createPrForTask_rejected_witness :
  exists w',
    createPrForTask failing_env "t1" "agent/s1" None None
      (world_with (sample_task READY_FOR_PR))
      = (Throw (Error "Network Error"), w') /\
    files w' = files (world_with (sample_task READY_FOR_PR)) /\
    reads w' = reads (world_with (sample_task READY_FOR_PR)) /\
    trace w' =
      PostPulls (pulls_request (repo (sample_task READY_FOR_PR)) "agent/s1"
                   (or_else None (title (sample_task READY_FOR_PR)))
                   (or_else None (description (sample_task READY_FOR_PR))))
        :: trace (world_with (sample_task READY_FOR_PR)).
Proof.
  apply (createPrForTask_rejected failing_env "t1" "agent/s1" None None
           (sample_task READY_FOR_PR) (Error "Network Error")
           (world_with (sample_task READY_FOR_PR))); reflexivity.
Defined.

Lemma create_tick_createPr_witness :
  exists t,
    files (execs happy_env
             [CreateTask "t1" "fix bug" "crash on start" None; Tick;
              CreatePrForTask "t1" "agent/s1" None None] boot) !! "t1"
      = Some (Doc t) /\
    status t = PR_CREATED /\
    githubPrUrl t = Some "https://host/org/app/pull/7" /\
    julesSessionId t = Some "s1" /\ title t = "fix bug" /\
    description t = "crash on start" /\
    createdAt t = now happy_env (reads boot).
Proof.
  apply (create_tick_createPr happy_env "t1" "fix bug" "crash on start" None
           "agent/s1" "s1" "https://host/org/app/pull/7" boot);
    [apply map_Forall_empty | reflexivity..].
Defined.

Lemma pulls_request_owner_name_witness :
  pulls_request "org/app/tree/main" "agent/s1" "fix bug" "crash on start" =
    {| pr_url := "https://api.github.com/repos/" +:+ "org" +:+ "/" +:+ "app"
                   +:+ "/pulls";
       pr_title := "fix bug"; pr_body := "crash on start";
       pr_head := "agent/s1"; pr_base := "main" |}.
Proof.
  apply (pulls_request_owner_name "org" "app" "tree/main" "org/app/tree/main"
           "agent/s1" "fix bug" "crash on start");
    [reflexivity | reflexivity | right; reflexivity].
Defined.

Lemma pulls_request_no_slash_witness :
  pr_url (pulls_request "app" "agent/s1" "fix bug" "crash on start") =
    "https://api.github.com/repos/" +:+ "app" +:+ "/undefined/pulls".
Proof.
  apply (pulls_request_no_slash "app" "agent/s1" "fix bug" "crash on start").
  reflexivity.
Defined.
